(** * Inference pipeline of the age and gender detector

    A shallow embedding of [src/lib/ml-models.ts] (the model manager: loader
    state machine and prediction) and of [src/lib/image-processing.ts] (the
    canvas normalisation of an uploaded image), together with the properties
    of the pipeline that the specification states.

    JavaScript numbers are IEEE 754 binary64 values; they are embedded as
    Rocq's primitive floats, so every arithmetic expression of the source
    evaluates here to the very bits it has in the source. *)

From Stdlib Require Import Floats ZArith List String Bool Lia.
Import ListNotations.

Set Warnings "-inexact-float".

Open Scope Z_scope.

(** ** The fragment of the JavaScript runtime that the sources use *)

Module JS.

(** A JavaScript number. *)
Definition number := float.

(** Conversion of an integer (an [unsigned long] attribute such as
    [img.width], or an integer literal) to a number. *)
Definition Number_of_Z (n : Z) : number :=
  SF2Prim (binary_normalize prec emax n 0 false).

Definition isNaN (x : number) : bool := is_nan x.

Definition isPosZero (x : number) : bool := is_zero x && negb (get_sign x).
Definition isNegZero (x : number) : bool := is_zero x && get_sign x.

(** [a > b] *)
Definition gt (a b : number) : bool := (b <? a)%float.

(** [Math.max(a, b)] (ECMAScript 21.3.2.24): NaN if an argument is NaN,
    [+0] is larger than [-0]. *)
Definition Math_max (a b : number) : number :=
  if isNaN a || isNaN b then nan
  else if isPosZero b && isNegZero a then b
  else if (a <? b)%float then b else a.

(** [Math.min(a, b)] (ECMAScript 21.3.2.25). *)
Definition Math_min (a b : number) : number :=
  if isNaN a || isNaN b then nan
  else if isNegZero b && isPosZero a then b
  else if (b <? a)%float then b else a.

(** [floor (v + 1/2)] for the exact value [v = (-1)^s * m * 2^e]. *)
Definition round_half_up (s : bool) (m : positive) (e : Z) : Z :=
  let d := 2 ^ (- e) in
  (2 * cond_Zopp s (Zpos m) + d) / (2 * d).

(** [Math.round(x)] (ECMAScript 21.3.2.28): the integral number closest to
    [x], ties towards [+Infinity]; NaN, the infinities and the zeros are
    returned unchanged, and a negative [x >= -0.5] gives [-0]. *)
Definition Math_round (x : number) : number :=
  match Prim2SF x with
  | S754_finite s m e =>
      if 0 <=? e then x
      else
        let n := round_half_up s m e in
        if n =? 0 then (if s then neg_zero else zero) else Number_of_Z n
  | _ => x
  end.

(** A thrown value: an [Error] object with its message, or anything else. *)
Inductive value :=
| Error (message : string)
| NotAnError.

(** [error instanceof Error ? error.message : fallback] *)
Definition message_or (fallback : string) (e : value) : string :=
  match e with
  | Error m => m
  | NotAnError => fallback
  end.

(** How a call returns: normally, or by throwing (for an [async] function:
    by rejecting its promise). *)
Inductive completion (A : Type) :=
| Return (a : A)
| Throw (e : value).
Arguments Return {A} a.
Arguments Throw {A} e.

(** [array[i]] on a typed array, followed by the conversion to a number that
    every use in the source applies: a missing element is [undefined],
    which converts to NaN. *)
Definition index (a : list number) (i : nat) : number := nth i a nan.
Arguments index a i%_nat.

(** [!x] for [x] an object or [null] *)
Definition is_null {A} (x : option A) : bool :=
  match x with
  | Some _ => false
  | None => true
  end.

End JS.

Import JS.

(** ** The DOM objects of the canvas normalisation *)

Module DOM.

Record RGBA := { red : Z; green : Z; blue : Z; alpha : Z }.

Definition transparent_black : RGBA :=
  {| red := 0; green := 0; blue := 0; alpha := 0 |}.

Definition channel (c : Z) (p : RGBA) : Z :=
  if c =? 0 then red p else if c =? 1 then green p
  else if c =? 2 then blue p else alpha p.

(** A decoded image: [width] and [height] are [unsigned long] attributes. *)
Record HTMLImageElement := {
  img_width : Z;
  img_height : Z;
  img_pixel : Z -> Z -> RGBA
}.

(** [ImageData]: [data] is a [Uint8ClampedArray] of [4 * width * height]
    bytes, RGBA, row-major; it is given by the byte at each index. *)
Record ImageData := {
  width : Z;
  height : Z;
  data : Z -> Z
}.

(** The destination rectangle of a [drawImage] call. *)
Record Rect := { dx : number; dy : number; dw : number; dh : number }.

(** A canvas with its 2D context: the bitmap, and the [drawImage] calls
    made on the context since the bitmap was last reset. *)
Record HTMLCanvasElement := {
  canvas_width : Z;
  canvas_height : Z;
  bitmap : Z -> Z -> RGBA;
  drawn : list Rect
}.

(** The resampling filter of the browser: the colour that [drawImage] gives
    to a pixel inside the destination rectangle, from the image, the
    rectangle, the pixel and the colour already there. *)
Definition Rasterizer := HTMLImageElement -> Rect -> Z -> Z -> RGBA -> RGBA.

Definition createCanvas : HTMLCanvasElement :=
  {| canvas_width := 300; canvas_height := 150;
     bitmap := fun _ _ => transparent_black; drawn := [] |}.

(** Assigning [canvas.width] or [canvas.height] resets the bitmap to
    transparent black. *)
Definition set_width (w : Z) (c : HTMLCanvasElement) : HTMLCanvasElement :=
  {| canvas_width := w; canvas_height := canvas_height c;
     bitmap := fun _ _ => transparent_black; drawn := [] |}.

Definition set_height (h : Z) (c : HTMLCanvasElement) : HTMLCanvasElement :=
  {| canvas_width := canvas_width c; canvas_height := h;
     bitmap := fun _ _ => transparent_black; drawn := [] |}.

(** [ctx.clearRect(x, y, w, h)] with integer arguments: the pixels of the
    rectangle become transparent black. *)
Definition clearRect (x y w h : Z) (c : HTMLCanvasElement) : HTMLCanvasElement :=
  {| canvas_width := canvas_width c; canvas_height := canvas_height c;
     bitmap := fun i j =>
       if (x <=? i) && (i <? x + w) && (y <=? j) && (j <? y + h)
       then transparent_black else bitmap c i j;
     drawn := drawn c |}.

(** The pixel [(i, j)], the unit square from [(i, j)] to [(i+1, j+1)],
    meets the interior of the rectangle.  A rectangle with a NaN
    coordinate meets no pixel. *)
Definition covers (r : Rect) (i j : Z) : bool :=
  ((dx r <? Number_of_Z (i + 1)) && (Number_of_Z i <? dx r + dw r) &&
   (dy r <? Number_of_Z (j + 1)) && (Number_of_Z j <? dy r + dh r))%float.

(** [ctx.drawImage(img, dx, dy, dw, dh)] with the default compositing:
    only pixels that the destination rectangle meets are written. *)
Definition drawImage (raster : Rasterizer) (img : HTMLImageElement)
    (r : Rect) (c : HTMLCanvasElement) : HTMLCanvasElement :=
  {| canvas_width := canvas_width c; canvas_height := canvas_height c;
     bitmap := fun i j =>
       if covers r i j then raster img r i j (bitmap c i j) else bitmap c i j;
     drawn := drawn c ++ [r] |}.

(** [ctx.getImageData(sx, sy, sw, sh)]; pixels outside the canvas read as
    transparent black. *)
Definition getImageData (sx sy sw sh : Z) (c : HTMLCanvasElement) : ImageData :=
  {| width := sw; height := sh;
     data := fun k =>
       let p := k / 4 in
       let i := sx + p mod sw in
       let j := sy + p / sw in
       channel (k mod 4)
         (if (0 <=? i) && (i <? canvas_width c) && (0 <=? j) && (j <? canvas_height c)
          then bitmap c i j else transparent_black) |}.

(** The pixel [(i, j)] of an [ImageData]. *)
Definition pixel (d : ImageData) (i j : Z) : RGBA :=
  let k := 4 * (j * width d + i) in
  {| red := data d k; green := data d (k + 1);
     blue := data d (k + 2); alpha := data d (k + 3) |}.

End DOM.

(** ** [src/lib/image-processing.ts] *)

Module ImageProcessing.
Import DOM.

Record ImageProcessingResult := {
  imageData : ImageData;
  originalWidth : number;
  originalHeight : number
}.

(** [class ImageProcessor]: the private canvas (its context is part of the
    canvas model). *)
Record ImageProcessor := { canvas : HTMLCanvasElement }.

Definition constructor : ImageProcessor := {| canvas := createCanvas |}.

Definition targetSize : Z := 224.

(** [const scale = Math.min(targetSize / originalWidth, targetSize / originalHeight)] *)
Definition scale (originalWidth originalHeight : number) : number :=
  Math_min (Number_of_Z targetSize / originalWidth)%float
           (Number_of_Z targetSize / originalHeight)%float.

(** The rectangle passed to [drawImage]: the scaled size and the centring
    offsets, as the source computes them. *)
Definition destination (originalWidth originalHeight : number) : Rect :=
  let scale := scale originalWidth originalHeight in
  let scaledWidth := (originalWidth * scale)%float in
  let scaledHeight := (originalHeight * scale)%float in
  let offsetX := ((Number_of_Z targetSize - scaledWidth) / 2)%float in
  let offsetY := ((Number_of_Z targetSize - scaledHeight) / 2)%float in
  {| dx := offsetX; dy := offsetY; dw := scaledWidth; dh := scaledHeight |}.

(** [processImageElement(img)]: returns the result and the processor with
    its canvas as the call leaves it. *)
Definition processImageElement (raster : Rasterizer) (img : HTMLImageElement)
    (this : ImageProcessor) : ImageProcessingResult * ImageProcessor :=
  let originalWidth := Number_of_Z (img_width img) in
  let originalHeight := Number_of_Z (img_height img) in
  let c := set_width targetSize (canvas this) in
  let c := set_height targetSize c in
  let c := clearRect 0 0 targetSize targetSize c in
  let c := drawImage raster img (destination originalWidth originalHeight) c in
  let imageData := getImageData 0 0 targetSize targetSize c in
  ({| imageData := imageData;
      originalWidth := originalWidth;
      originalHeight := originalHeight |},
   {| canvas := c |}).

End ImageProcessing.

(** ** TensorFlow.js: tensors and models with an explicit lifetime *)

Module Tf.

(** A tensor buffer: its identity in the engine, its shape and its values. *)
Record Tensor := { id : nat; shape : list Z; values : list number }.

(** The calls made into the library, in order. *)
Inductive call :=
| ready
| sequential (model : nat)
| zeros (tensor : nat)
| fromPixels
| resizeBilinear (input : nat)
| div (input : nat)
| expandDims (input : nat)
| predict (model input : nat)
| data (tensor : nat)
| dispose (tensor : nat)
| disposeModel (model : nat).

(** The engine: the tensors and models that are allocated and not yet
    released, every release in order, and the calls made so far. *)
Record Engine := {
  nextTensor : nat;
  live : list nat;
  released : list nat;
  nextModel : nat;
  liveModels : list nat;
  releasedModels : list nat;
  calls : list call
}.

Definition start : Engine :=
  {| nextTensor := 0; live := []; released := [];
     nextModel := 0; liveModels := []; releasedModels := []; calls := [] |}.

Definition log (c : call) (e : Engine) : Engine :=
  {| nextTensor := nextTensor e; live := live e; released := released e;
     nextModel := nextModel e; liveModels := liveModels e;
     releasedModels := releasedModels e; calls := calls e ++ [c] |}.

(** A new tensor is registered with the engine. *)
Definition makeTensor (sh : list Z) (vs : list number) (e : Engine) : Tensor * Engine :=
  ({| id := nextTensor e; shape := sh; values := vs |},
   {| nextTensor := S (nextTensor e); live := live e ++ [nextTensor e];
      released := released e;
      nextModel := nextModel e; liveModels := liveModels e;
      releasedModels := releasedModels e; calls := calls e |}).

Definition isDisposed (t : nat) (e : Engine) : bool :=
  negb (existsb (Nat.eqb t) (live e)).

(** The buffer of tensor [t] is released. *)
Definition release (t : nat) (e : Engine) : Engine :=
  {| nextTensor := nextTensor e;
     live := filter (fun u => negb (Nat.eqb t u)) (live e);
     released := released e ++ [t];
     nextModel := nextModel e; liveModels := liveModels e;
     releasedModels := releasedModels e; calls := calls e |}.

(** [tensor.dispose()]: nothing happens on a tensor already disposed. *)
Definition disposeTensor (t : Tensor) (e : Engine) : Engine :=
  let e := log (dispose (id t)) e in
  if isDisposed (id t) e then e else release (id t) e.

(** A new model is registered with the engine. *)
Definition makeModel (e : Engine) : nat * Engine :=
  (nextModel e,
   {| nextTensor := nextTensor e; live := live e; released := released e;
      nextModel := S (nextModel e); liveModels := liveModels e ++ [nextModel e];
      releasedModels := releasedModels e;
      calls := calls e ++ [sequential (nextModel e)] |}).

(** [model.dispose()] *)
Definition disposeLayersModel (m : nat) (e : Engine) : Engine :=
  {| nextTensor := nextTensor e; live := live e; released := released e;
     nextModel := nextModel e;
     liveModels := filter (fun u => negb (Nat.eqb m u)) (liveModels e);
     releasedModels := releasedModels e ++ [m];
     calls := calls e ++ [disposeModel m] |}.

(** The end of a [tf.tidy] scope opened when [scopeStart] was the next
    tensor identity: every tensor made in the scope and still alive is
    released, except the tensor that the scope returns. *)
Definition endScope (scopeStart : nat) (kept : option nat) (e : Engine) : Engine :=
  fold_left (fun e t => release t e)
    (filter (fun t => (scopeStart <=? t)%nat &&
                      negb (match kept with Some k => Nat.eqb k t | None => false end))
            (live e))
    e.

(** How many times the buffer of tensor [t] has been released. *)
Definition releases (t : nat) (e : Engine) : nat :=
  count_occ Nat.eq_dec (released e) t.

(** The tensors created between two states of the engine. *)
Definition created (before after : Engine) : list nat :=
  seq (nextTensor before) (nextTensor after - nextTensor before).

End Tf.

(** ** [src/lib/ml-models.ts] *)

Module MLModels.

Inductive Gender := male | female.

Record AgeGenderPrediction := {
  age : number;
  gender : Gender;
  ageConfidence : number;
  genderConfidence : number
}.

Record ModelLoadingState := {
  isLoading : bool;
  isLoaded : bool;
  error : option string;
  progress : Z
}.

(** [class MLModelManager]: a model is a handle of the engine or [null]. *)
Record MLModelManager := {
  ageModel : option nat;
  genderModel : option nat;
  isInitialized : bool;
  loadingState : ModelLoadingState
}.

Definition new_MLModelManager : MLModelManager :=
  {| ageModel := None; genderModel := None; isInitialized := false;
     loadingState :=
       {| isLoading := false; isLoaded := false; error := None; progress := 0 |} |}.

(** The state of the program: the singleton manager and the engine. *)
Record World := { modelManager : MLModelManager; engine : Tf.Engine }.

Definition initial : World :=
  {| modelManager := new_MLModelManager; engine := Tf.start |}.

(** What the library and the runtime do during one call of [loadModels] or
    [predict]: which library calls throw, what a forward pass and the
    bilinear resize compute, and what [Math.random()] returns. *)
Record Env := {
  tf_ready : option value;
  createAgeModel_throws : option value;
  createGenderModel_throws : option value;
  tf_zeros : option value;
  model_predict : nat -> Tf.Tensor -> completion (list number);
  tf_fromPixels : DOM.ImageData -> option value;
  tf_resizeBilinear : Tf.Tensor -> completion (list number);
  tensor_data : Tf.Tensor -> option value;
  Math_random : number
}.

(** *** Statements: state passing with exceptions *)

Definition M (A : Type) : Type := World -> completion A * World.

Definition ret {A} (a : A) : M A := fun w => (Return a, w).

Definition throw {A} (e : value) : M A := fun w => (Throw e, w).

Definition bind {A B} (c : M A) (k : A -> M B) : M B :=
  fun w =>
    match c w with
    | (Return a, w') => k a w'
    | (Throw e, w') => (Throw e, w')
    end.

Notation "x <- c ;; k" := (bind c (fun x => k))
  (at level 61, c at next level, right associativity).
Notation "c ;; k" := (bind c (fun _ => k))
  (at level 61, right associativity).

(** [try { body } catch (error) { handler }] *)
Definition try_catch {A} (body : M A) (handler : value -> M A) : M A :=
  fun w =>
    match body w with
    | (Throw e, w') => handler e w'
    | r => r
    end.

Definition this : M MLModelManager := fun w => (Return (modelManager w), w).

Definition update (f : MLModelManager -> MLModelManager) : M unit :=
  fun w => (Return tt, {| modelManager := f (modelManager w); engine := engine w |}).

Definition on_engine (f : Tf.Engine -> Tf.Engine) : M unit :=
  fun w => (Return tt, {| modelManager := modelManager w; engine := f (engine w) |}).

Definition external (failure : option value) : M unit :=
  match failure with
  | Some e => throw e
  | None => ret tt
  end.

Definition computed {A} (r : completion A) : M A :=
  match r with
  | Return a => ret a
  | Throw e => throw e
  end.

(** *** Assignments to the fields of the manager *)

Definition set_loadingState (s : ModelLoadingState) (m : MLModelManager) :=
  {| ageModel := ageModel m; genderModel := genderModel m;
     isInitialized := isInitialized m; loadingState := s |}.

Definition set_isLoading (b : bool) (m : MLModelManager) :=
  set_loadingState
    {| isLoading := b; isLoaded := isLoaded (loadingState m);
       error := error (loadingState m); progress := progress (loadingState m) |} m.

Definition set_isLoaded (b : bool) (m : MLModelManager) :=
  set_loadingState
    {| isLoading := isLoading (loadingState m); isLoaded := b;
       error := error (loadingState m); progress := progress (loadingState m) |} m.

Definition set_error (e : option string) (m : MLModelManager) :=
  set_loadingState
    {| isLoading := isLoading (loadingState m); isLoaded := isLoaded (loadingState m);
       error := e; progress := progress (loadingState m) |} m.

Definition set_progress (p : Z) (m : MLModelManager) :=
  set_loadingState
    {| isLoading := isLoading (loadingState m); isLoaded := isLoaded (loadingState m);
       error := error (loadingState m); progress := p |} m.

Definition set_ageModel (h : option nat) (m : MLModelManager) :=
  {| ageModel := h; genderModel := genderModel m;
     isInitialized := isInitialized m; loadingState := loadingState m |}.

Definition set_genderModel (h : option nat) (m : MLModelManager) :=
  {| ageModel := ageModel m; genderModel := h;
     isInitialized := isInitialized m; loadingState := loadingState m |}.

Definition set_isInitialized (b : bool) (m : MLModelManager) :=
  {| ageModel := ageModel m; genderModel := genderModel m;
     isInitialized := b; loadingState := loadingState m |}.

(** *** Library calls *)

Definition makeTensor (sh : list Z) (vs : list number) : M Tf.Tensor :=
  fun w =>
    let (t, e) := Tf.makeTensor sh vs (engine w) in
    (Return t, {| modelManager := modelManager w; engine := e |}).

(** [tensor.dispose()] *)
Definition dispose_tensor (t : Tf.Tensor) : M unit :=
  on_engine (Tf.disposeTensor t).

(** [await tensor.data()] *)
Definition data_of (env : Env) (t : Tf.Tensor) : M (list number) :=
  on_engine (Tf.log (Tf.data (Tf.id t))) ;;
  fun w =>
    if Tf.isDisposed (Tf.id t) (engine w)
    then (Throw (Error "Tensor is disposed."), w)
    else (external (tensor_data env t) ;; ret (Tf.values t)) w.

(** [model.predict(input)]: one forward pass, which makes the output
    tensor.  The model is a field of the manager, read when the call is
    made. *)
Definition forward (env : Env) (model : option nat) (input : Tf.Tensor) : M Tf.Tensor :=
  match model with
  | None => throw (Error "Cannot read properties of null (reading 'predict')")
  | Some h =>
      on_engine (Tf.log (Tf.predict h (Tf.id input))) ;;
      out <- computed (model_predict env h input) ;;
      makeTensor [1; Z.of_nat (List.length out)] out
  end.

(** [tf.sequential(...)] and [model.compile(...)] of [createAgeModel] and
    of [createGenderModel] *)
Definition createModel (failure : option value) : M nat :=
  external failure ;;
  fun w =>
    let (h, e) := Tf.makeModel (engine w) in
    (Return h, {| modelManager := modelManager w; engine := e |}).

Definition createAgeModel (env : Env) : M nat :=
  createModel (createAgeModel_throws env).

Definition createGenderModel (env : Env) : M nat :=
  createModel (createGenderModel_throws env).

(** [tf.zeros(shape)] *)
Definition zeros (env : Env) (sh : list Z) : M Tf.Tensor :=
  external (tf_zeros env) ;;
  t <- makeTensor sh (repeat 0%float (Z.to_nat (fold_right Z.mul 1 sh))) ;;
  on_engine (Tf.log (Tf.zeros (Tf.id t))) ;;
  ret t.

(** *** [async loadModels()]

    An [async] function runs without interruption up to an [await]; there
    it is suspended, and other tasks run (the polling observer of
    [ModelLoader.tsx], another call of [loadModels]) before it is resumed.
    The body is therefore cut at its three [await]s. *)

Inductive LoadPoint :=
| AwaitReady
| AwaitAgeWarmUp (dummyInput : Tf.Tensor)
| AwaitGenderWarmUp (dummyInput : Tf.Tensor).

(** A call is suspended at an [await], or its promise is resolved; [caught]
    is the exception that the [catch] clause handled, if any. *)
Inductive LoadStatus :=
| Suspended (point : LoadPoint)
| Resolved (caught : option value).

Definition exec (c : M unit) (w : World) : World := snd (c w).

(** [catch (error) { ... } finally { ... }] *)
Definition load_catch (e : value) : M unit :=
  update (set_error (Some (message_or "Failed to load models" e))).

Definition load_finally : M unit :=
  update (set_isLoading false).

(** A piece of the [try] block that ends at an [await] or with the block. *)
Definition in_try {A} (piece : M A) (w : World) : World * (A + option value) :=
  match piece w with
  | (Return a, w') => (w', inl a)
  | (Throw e, w') => (exec (load_catch e ;; load_finally) w', inr (Some e))
  end.

(** From the call to [await tf.ready()]; [None] when the guard returns. *)
Definition begin (w : World) : option World :=
  if isInitialized (modelManager w) then None
  else
    Some (exec (update (set_isLoading true) ;;
                update (set_error None) ;;
                update (set_progress 0) ;;
                on_engine (Tf.log Tf.ready)) w).

(** From [tf.ready()] settled to [await this.ageModel.predict(dummyInput)]. *)
Definition after_ready (env : Env) : World -> World * (Tf.Tensor + option value) :=
  in_try (
    external (tf_ready env) ;;
    update (set_progress 20) ;;
    model <- createAgeModel env ;;
    update (set_ageModel (Some model)) ;;
    update (set_progress 60) ;;
    model <- createGenderModel env ;;
    update (set_genderModel (Some model)) ;;
    update (set_progress 90) ;;
    dummyInput <- zeros env [1; 224; 224; 3] ;;
    m <- this ;;
    forward env (ageModel m) dummyInput ;;
    ret dummyInput).

(** To [await this.genderModel.predict(dummyInput)]. *)
Definition after_age_warm_up (env : Env) (dummyInput : Tf.Tensor)
  : World -> World * (Tf.Tensor + option value) :=
  in_try (
    m <- this ;;
    forward env (genderModel m) dummyInput ;;
    ret dummyInput).

(** To the end of the function. *)
Definition after_gender_warm_up (dummyInput : Tf.Tensor) (w : World)
  : World * option value :=
  match in_try (
          dispose_tensor dummyInput ;;
          update (set_progress 100) ;;
          update (set_isLoaded true) ;;
          update (set_isInitialized true)) w with
  | (w', inl _) => (exec load_finally w', None)
  | (w', inr c) => (w', c)
  end.

(** The same pieces, for a scheduler that interleaves several calls. *)
Definition load_start (w : World) : World * LoadStatus :=
  match begin w with
  | None => (w, Resolved None)
  | Some w' => (w', Suspended AwaitReady)
  end.

Definition suspended_at (point : Tf.Tensor -> LoadPoint)
    (r : World * (Tf.Tensor + option value)) : World * LoadStatus :=
  match r with
  | (w, inl dummyInput) => (w, Suspended (point dummyInput))
  | (w, inr c) => (w, Resolved c)
  end.

Definition load_resume (env : Env) (point : LoadPoint) (w : World) : World * LoadStatus :=
  match point with
  | AwaitReady => suspended_at AwaitAgeWarmUp (after_ready env w)
  | AwaitAgeWarmUp d => suspended_at AwaitGenderWarmUp (after_age_warm_up env d w)
  | AwaitGenderWarmUp d =>
      let (w', c) := after_gender_warm_up d w in (w', Resolved c)
  end.

(** [tf.tidy(fn)] *)
Definition tidy (fn : M Tf.Tensor) : M Tf.Tensor :=
  fun w =>
    let scopeStart := Tf.nextTensor (engine w) in
    let (r, w') := fn w in
    let kept := match r with Return t => Some (Tf.id t) | Throw _ => None end in
    (r, {| modelManager := modelManager w';
           engine := Tf.endScope scopeStart kept (engine w') |}).

(** The RGB values of the pixels, as [tf.browser.fromPixels] reads them. *)
Definition rgb (d : DOM.ImageData) : list number :=
  map (fun k => Number_of_Z (DOM.data d (4 * (k / 3) + k mod 3)))
      (map Z.of_nat (seq 0 (Z.to_nat (3 * DOM.width d * DOM.height d)))).

(** [preprocessImage(imageData)] *)
Definition preprocessImage (env : Env) (imageData : DOM.ImageData) : M Tf.Tensor :=
  tidy (
    on_engine (Tf.log Tf.fromPixels) ;;
    external (tf_fromPixels env imageData) ;;
    tensor <- makeTensor [DOM.height imageData; DOM.width imageData; 3] (rgb imageData) ;;
    on_engine (Tf.log (Tf.resizeBilinear (Tf.id tensor))) ;;
    resized <- computed (tf_resizeBilinear env tensor) ;;
    tensor <- makeTensor [224; 224; 3] resized ;;
    on_engine (Tf.log (Tf.div (Tf.id tensor))) ;;
    divisor <- makeTensor [] [255%float] ;;
    tensor <- makeTensor (Tf.shape tensor)
                (map (fun v => (v / 255)%float) (Tf.values tensor)) ;;
    on_engine (Tf.log (Tf.expandDims (Tf.id tensor))) ;;
    tensor <- makeTensor (1 :: Tf.shape tensor) (Tf.values tensor) ;;
    ret tensor).

Definition NotLoaded : value := Error "Models not loaded. Call loadModels() first.".

(** [async predict(imageData)] *)
Definition predict (env : Env) (imageData : DOM.ImageData) : M AgeGenderPrediction :=
  fun w =>
    let m := modelManager w in
    if negb (isInitialized m) || is_null (ageModel m) || is_null (genderModel m)
    then (Throw NotLoaded, w)
    else
      (preprocessedImage <- preprocessImage env imageData ;;
       try_catch
         (agePrediction <- forward env (ageModel m) preprocessedImage ;;
          ageValue <- data_of env agePrediction ;;
          let predictedAge :=
            Math_max 0%float (Math_min 100%float (index ageValue 0 * 100 + 25)%float) in
          genderPrediction <- forward env (genderModel m) preprocessedImage ;;
          genderProbs <- data_of env genderPrediction ;;
          let maleProb := index genderProbs 0 in
          let femaleProb := index genderProbs 1 in
          let predictedGender := if gt maleProb femaleProb then male else female in
          let genderConfidence := Math_max maleProb femaleProb in
          dispose_tensor agePrediction ;;
          dispose_tensor genderPrediction ;;
          dispose_tensor preprocessedImage ;;
          ret {| age := Math_round predictedAge;
                 gender := predictedGender;
                 ageConfidence := (0.75 + Math_random env * 0.2)%float;
                 genderConfidence := genderConfidence |})
         (fun error =>
            dispose_tensor preprocessedImage ;;
            throw (Error ("Prediction failed: " ++ message_or "Unknown error" error)%string))) w.

(** [getLoadingState()]: a copy of the loading state. *)
Definition getLoadingState (w : World) : ModelLoadingState :=
  let s := loadingState (modelManager w) in
  {| isLoading := isLoading s; isLoaded := isLoaded s;
     error := error s; progress := progress s |}.

(** One call of [loadModels] run to its end with no other call in between:
    the final state, the snapshots that [getLoadingState] gives at each
    [await] of the call, and the exception caught. *)
Record LoadRun := {
  final : World;
  samples : list ModelLoadingState;
  caught : option value
}.

Definition loadModels (env : Env) (w : World) : LoadRun :=
  match begin w with
  | None => {| final := w; samples := []; caught := None |}
  | Some w0 =>
      let s0 := getLoadingState w0 in
      match after_ready env w0 with
      | (w1, inr c) => {| final := w1; samples := [s0]; caught := c |}
      | (w1, inl dummyInput) =>
          let s1 := getLoadingState w1 in
          match after_age_warm_up env dummyInput w1 with
          | (w2, inr c) => {| final := w2; samples := [s0; s1]; caught := c |}
          | (w2, inl dummyInput) =>
              let s2 := getLoadingState w2 in
              let (w3, c) := after_gender_warm_up dummyInput w2 in
              {| final := w3; samples := [s0; s1; s2]; caught := c |}
          end
      end
  end.

(** Everything that an observer of the call can sample: the snapshots at
    the [await]s, then the state that the call leaves. *)
Definition observations (r : LoadRun) : list ModelLoadingState :=
  samples r ++ [getLoadingState (final r)].

(** [dispose()] *)
Definition dispose : M unit :=
  m <- this ;;
  match ageModel m with
  | Some h => on_engine (Tf.disposeLayersModel h) ;; update (set_ageModel None)
  | None => ret tt
  end ;;
  m <- this ;;
  match genderModel m with
  | Some h => on_engine (Tf.disposeLayersModel h) ;; update (set_genderModel None)
  | None => ret tt
  end ;;
  update (set_isInitialized false).

End MLModels.

Import DOM ImageProcessing MLModels.

(** ** What the specification says, in its own words *)

Module Spec.

(** **** Model loader *)




(** The model handles constructed between two states. *)
Definition constructed (w w' : World) : list nat :=
  seq (Tf.nextModel (engine w)) (Tf.nextModel (engine w') - Tf.nextModel (engine w)).

(** Failure of a load: the message is captured, [isLoading] and [isLoaded]
    are false, every model handle constructed before the failure is
    disposed, and the registry does not hold exactly one of the two models. *)
Definition clean_failure (w : World) (r : LoadRun) : Prop :=
  forall e, caught r = Some e ->
    let s := getLoadingState (final r) in
    error s = Some (message_or "Failed to load models" e) /\
    isLoading s = false /\
    isLoaded s = false /\
    (forall h, In h (constructed w (final r)) ->
               ~ In h (Tf.liveModels (engine (final r)))) /\
    is_null (ageModel (modelManager (final r))) =
    is_null (genderModel (modelManager (final r))).

Definition terminal (s : ModelLoadingState) : Prop :=
  isLoaded s = true \/ error s <> None.

(** The loading state is immutable once terminal: a later call of
    [loadModels] shows the same state to every observer. *)
Definition frozen_when_terminal (env : Env) (w : World) : Prop :=
  terminal (getLoadingState w) ->
  Forall (fun s => s = getLoadingState w) (observations (loadModels env w)).

(** Idempotent start: a call made while a load is in progress does nothing. *)
Definition idempotent_start (w : World) : Prop :=
  isLoading (getLoadingState w) = true ->
  load_start w = (w, Resolved None).

(** **** Image normalizer *)

(** [round (a * s)] for [s = min (224 / a, 224 / b)], rounding half up, in
    exact arithmetic: [a * s] is the smaller of 224 and [224 * a / b]. *)
Definition rounded (a b : Z) : Z :=
  Z.min 224 ((2 * 224 * a + b) / (2 * b)).

(** The non-padded region: the rounded size, centred, the odd pixel of the
    padding on the trailing side. *)
Definition region (w0 h0 : Z) : Rect :=
  let scaledW := rounded w0 h0 in
  let scaledH := rounded h0 w0 in
  {| dx := Number_of_Z ((224 - scaledW) / 2);
     dy := Number_of_Z ((224 - scaledH) / 2);
     dw := Number_of_Z scaledW;
     dh := Number_of_Z scaledH |}.

Definition opaque_black : RGBA :=
  {| red := 0; green := 0; blue := 0; alpha := 255 |}.

(** Aspect-preserving normalization as the specification states it. *)
Definition normalized (raster : Rasterizer) (img : HTMLImageElement) : Prop :=
  let (r, p) := processImageElement raster img constructor in
  width (imageData r) = 224 /\
  height (imageData r) = 224 /\
  drawn (canvas p) = [region (img_width img) (img_height img)] /\
  forall i j, 0 <= i < 224 -> 0 <= j < 224 ->
    covers (region (img_width img) (img_height img)) i j = false ->
    pixel (imageData r) i j = opaque_black.

(** **** Inference engine *)

(** [x] is an integer between [lo] and [hi]. *)
Definition integer_in (lo hi : Z) (x : number) : Prop :=
  exists n : Z, lo <= n <= hi /\ x = Number_of_Z n.

(** [y] is [clamp(x, lo, hi)]: [lo] when [x] is at most [lo], [hi] when [x]
    is at least [hi], and [x] itself in between. *)
Definition clamped (lo hi x y : number) : Prop :=
  ((x <=? lo)%float = true /\ y = lo) \/
  ((hi <=? x)%float = true /\ y = hi) \/
  ((lo <? x)%float = true /\ (x <? hi)%float = true /\ y = x).

(** [y] is [x] rounded to the nearest integer: an integer [n] at a distance
    of at most 1/2 from [x], the distance being taken on the exact value
    [(-1)^s * m * 2^e] of [x]. *)
Definition nearest_integer (x y : number) : Prop :=
  exists n : Z,
    y = Number_of_Z n /\
    match Prim2SF x with
    | S754_zero _ => n = 0
    | S754_finite s m e =>
        Z.abs (2 * cond_Zopp s (Zpos m) * 2 ^ Z.max e 0 - 2 * n * 2 ^ Z.max (- e) 0)
        <= 2 ^ Z.max (- e) 0
    | _ => False
    end.

(** The entry of the probability vector [[pMale, pFemale]] for a label. *)
Definition probability (l : Gender) (pMale pFemale : number) : number :=
  match l with
  | male => pMale
  | female => pFemale
  end.

(** [registry.isReady()] *)
Definition isReady (w : World) : bool :=
  isInitialized (modelManager w)
  && negb (is_null (ageModel (modelManager w)))
  && negb (is_null (genderModel (modelManager w))).

End Spec.

(** ** Concrete runs *)

Module Scenario.

Definition environment (ready createAge createGender : option value)
    (passes : nat -> Tf.Tensor -> completion (list number))
    (reads : Tf.Tensor -> option value) : Env :=
  {| tf_ready := ready;
     createAgeModel_throws := createAge;
     createGenderModel_throws := createGender;
     tf_zeros := None;
     model_predict := passes;
     tf_fromPixels := fun _ => None;
     tf_resizeBilinear := fun t => Return (Tf.values t);
     tensor_data := reads;
     Math_random := 0.5%float |}.

(** Model 0 is the age model and model 1 the gender model of a first load. *)
Definition outputs (ageValue genderProbs : list number)
    : nat -> Tf.Tensor -> completion (list number) :=
  fun h _ => Return (if Nat.eqb h 0 then ageValue else genderProbs).

Definition works : Env :=
  environment None None None (outputs [0.1%float] [0.4%float; 0.6%float]) (fun _ => None).

Definition tie : Env :=
  environment None None None (outputs [0.1%float] [0.5%float; 0.5%float]) (fun _ => None).

(** The forward pass of the age model computes NaN. *)
Definition not_a_number : Env :=
  environment None None None (outputs [nan] [0.4%float; 0.6%float]) (fun _ => None).

Definition no_backend : Env :=
  environment (Some (Error "No backend found in registry.")) None None
    (outputs [] []) (fun _ => None).

Definition age_model_fails : Env :=
  environment None (Some (Error "Failed to compile fragment shader.")) None
    (outputs [] []) (fun _ => None).

Definition gender_model_fails : Env :=
  environment None None (Some (Error "Failed to compile fragment shader."))
    (outputs [] []) (fun _ => None).

(** The forward pass of the gender model throws, that of the age model
    does not. *)
Definition gender_pass_fails : Env :=
  environment None None None
    (fun h _ => if Nat.eqb h 0 then Return [0.1%float]
                else Throw (Error "WebGL context lost."))
    (fun _ => None).

(** Reading back the output of the age model fails. *)
Definition age_read_fails : Env :=
  environment None None None (outputs [0.1%float] [0.4%float; 0.6%float])
    (fun _ => Some (Error "WebGL context lost.")).

(** A white image data of one pixel. *)
Definition dot : ImageData := {| width := 1; height := 1; data := fun _ => 255 |}.

Definition white : RGBA := {| red := 255; green := 255; blue := 255; alpha := 255 |}.

Definition photo (w h : Z) : HTMLImageElement :=
  {| img_width := w; img_height := h; img_pixel := fun _ _ => white |}.

(** A rasterizer without smoothing. *)
Definition flat : Rasterizer := fun img _ _ _ _ => img_pixel img 0 0.

(** After a first load that succeeded. *)
Definition ready_world : World := final (loadModels works initial).

(** Then after [dispose()]. *)
Definition disposed_world : World := snd (dispose ready_world).

(** After a first load that failed at the construction of the age model. *)
Definition failed_world : World := final (loadModels age_model_fails initial).

(** A first load suspended at [await tf.ready()]. *)
Definition loading_world : World := fst (load_start initial).

(** A first load suspended at the warm-up of the age model. *)
Definition warming_world : World := fst (load_resume works AwaitReady loading_world).

(** The job queue: the suspended calls are resumed in turn, first in first
    out, until [fuel] pieces have run or no call is left. *)
Fixpoint round_robin (env : Env) (fuel : nat) (queue : list LoadPoint) (w : World)
  : World :=
  match fuel, queue with
  | S fuel', point :: rest =>
      let (w', status) := load_resume env point w in
      round_robin env fuel'
        (match status with
         | Suspended point' => rest ++ [point']
         | Resolved _ => rest
         end) w'
  | _, _ => w
  end.

(** Two calls of [loadModels] in the same turn, as when the effect of
    [ModelLoader.tsx] runs twice, both run to their end. *)
Definition two_calls : World :=
  round_robin works 6 [AwaitReady; AwaitReady] (fst (load_start loading_world)).

End Scenario.

(** What [predict] returns, from the values read back from the two forward
    passes. *)
Definition prediction_of (env : Env) (ageValue genderProbs : list number)
  : AgeGenderPrediction :=
  {| age := Math_round
              (Math_max 0%float (Math_min 100%float (index ageValue 0 * 100 + 25)%float));
     gender := if gt (index genderProbs 0) (index genderProbs 1) then male else female;
     ageConfidence := (0.75 + Math_random env * 0.2)%float;
     genderConfidence := Math_max (index genderProbs 0) (index genderProbs 1) |}.

(** What [predict] reads back from the forward pass of a model on the
    preprocessed image, when preprocessing and the pass return. *)
Definition read_back (env : Env) (model : option nat) (imageData : ImageData)
    (w : World) : option (list number) :=
  match model, preprocessImage env imageData w with
  | Some h, (Return input, _) =>
      match model_predict env h input with
      | Return out => Some out
      | Throw _ => None
      end
  | _, _ => None
  end.

(** The raw scalar of the age model. *)
Definition raw_age (env : Env) (imageData : ImageData) (w : World) : option number :=
  option_map (fun ageValue => index ageValue 0)
    (read_back env (ageModel (modelManager w)) imageData w).

(** The probability vector [[pMale, pFemale]] of the gender model. *)
Definition gender_probabilities (env : Env) (imageData : ImageData) (w : World)
  : option (number * number) :=
  option_map (fun genderProbs => (index genderProbs 0, index genderProbs 1))
    (read_back env (genderModel (modelManager w)) imageData w).

(** The tensors created between two states of the engine that are still
    allocated in the second. *)
Definition leaked (before after : Tf.Engine) : list nat :=
  filter (fun t => negb (Tf.isDisposed t after)) (Tf.created before after).

(** ** Vocabulary for the loader *)

(** The loading state of the manager. *)
Definition state_of (w : World) : ModelLoadingState := loadingState (modelManager w).

(** The models at [w'] are those at [w] and the ones constructed since; none
    was disposed. *)
Definition models_from (w w' : World) : Prop :=
  (Tf.nextModel (engine w) <= Tf.nextModel (engine w'))%nat /\
  Tf.releasedModels (engine w') = Tf.releasedModels (engine w) /\
  forall h, In h (Tf.liveModels (engine w')) <->
            In h (Tf.liveModels (engine w)) \/
            (Tf.nextModel (engine w) <= h < Tf.nextModel (engine w'))%nat.

(** A piece of [loadModels] ended in [catch] and [finally]. *)
Definition failed_with (e : value) (w' : World) : Prop :=
  isInitialized (modelManager w') = false /\
  isLoading (state_of w') = false /\
  error (state_of w') = Some (message_or "Failed to load models" e).

(** A piece of [loadModels] reached its [await] with progress [p]. *)
Definition suspended_with (p : Z) (w w' : World) : Prop :=
  isInitialized (modelManager w') = false /\
  isLoading (state_of w') = isLoading (state_of w) /\
  error (state_of w') = error (state_of w) /\
  progress (state_of w') = p.

(** The loading state while a load is in progress. *)
Definition Loading (l : bool) (p : Z) : ModelLoadingState :=
  {| isLoading := true; isLoaded := l; error := None; progress := p |}.

(** ** More of the JavaScript runtime *)

Module Runtime.

(** [Math.floor(x)] (ECMAScript 21.3.2.16): NaN, the infinities, the zeros
    and the integral numbers are returned unchanged; a positive [x] below 1
    gives [+0]. *)
Definition Math_floor (x : number) : number :=
  match Prim2SF x with
  | S754_finite s m e =>
      if 0 <=? e then x
      else
        let n := cond_Zopp s (Zpos m) / 2 ^ (- e) in
        if n =? 0 then zero else Number_of_Z n
  | _ => x
  end.

(** ASCII lower case of a character. *)
Definition lower (c : Ascii.ascii) : Ascii.ascii :=
  let n := Ascii.nat_of_ascii c in
  if (65 <=? n)%nat && (n <=? 90)%nat then Ascii.ascii_of_nat (n + 32) else c.

(** [s.toLowerCase()] on a string of ASCII characters, as the media type of
    a [File] is. *)
Fixpoint toLowerCase (s : string) : string :=
  match s with
  | EmptyString => EmptyString
  | String c rest => String (lower c) (toLowerCase rest)
  end.

(** [array.includes(s)] on an array of strings. *)
Definition includes (a : list string) (s : string) : bool :=
  existsb (String.eqb s) a.

(** A string used as a condition: the empty string and [null] are false. *)
Definition truthy (s : option string) : bool :=
  match s with
  | Some s => negb (String.eqb s "")
  | None => false
  end.

(** The index that a number denotes in [array[i]]: a non-negative integer,
    [-0] standing for 0; any other number names no element. *)
Definition array_index (i : number) : option nat :=
  match Prim2SF i with
  | S754_zero _ => Some 0%nat
  | S754_finite false m e =>
      if 0 <=? e then Some (Z.to_nat (Zpos m * 2 ^ e))
      else if Zpos m mod 2 ^ (- e) =? 0 then Some (Z.to_nat (Zpos m / 2 ^ (- e)))
      else None
  | _ => None
  end.

(** The functions on numbers that are taken from the runtime as they are:
    logarithm and power, and the conversions between numbers and text. *)
Record Numbers := {
  Math_log : number -> number;
  Math_pow : number -> number -> number;
  toFixed : number -> Z -> string;
  parseFloat : string -> number;
  toString : number -> string
}.

End Runtime.

Import Runtime.

(** ** The rest of [src/lib/image-processing.ts] *)

Module ImageFiles.

(** A [File]: its size in bytes, its media type and its content. *)
Record File := {
  size : number;
  type : string;
  bytes : list Z
}.

Definition validTypes : list string :=
  ["image/jpeg"; "image/jpg"; "image/png"; "image/webp"]%string.

(** [isValidImageFile(file)] *)
Definition isValidImageFile (file : File) : bool :=
  includes validTypes (toLowerCase (type file)).

Definition sizes : list string := ["Bytes"; "KB"; "MB"; "GB"]%string.

(** [sizes[i]] in a concatenation: a missing element reads ["undefined"]. *)
Definition unit_of (i : number) : string :=
  match array_index i with
  | Some n => nth n sizes "undefined"%string
  | None => "undefined"%string
  end.

(** [ImageProcessor.formatFileSize(bytes)] *)
Definition formatFileSize (rt : Numbers) (bytes : number) : string :=
  if (bytes =? 0)%float then "0 Bytes"%string
  else
    let k := 1024%float in
    let i := Math_floor (Math_log rt bytes / Math_log rt k)%float in
    (toString rt (parseFloat rt (toFixed rt (bytes / Math_pow rt k i)%float 2))
     ++ " " ++ unit_of i)%string.

(** [ImageProcessor.isValidFileSize(file, maxSizeMB)] *)
Definition isValidFileSize (file : File) (maxSizeMB : number) : bool :=
  let maxSizeBytes := (maxSizeMB * 1024 * 1024)%float in
  (size file <=? maxSizeBytes)%float.

Record Validation := {
  isValid : bool;
  error : option string
}.

(** [validateImageFile(file)] *)
Definition validateImageFile (rt : Numbers) (file : File) : Validation :=
  if negb (isValidFileSize file 10%float) then
    {| isValid := false;
       error := Some ("File size too large. Maximum size is 10MB. Current size: "
                      ++ formatFileSize rt (size file))%string |}
  else if negb (includes validTypes (toLowerCase (type file))) then
    {| isValid := false;
       error := Some "Invalid file format. Supported formats: JPEG, PNG, WebP"%string |}
  else {| isValid := true; error := None |}.

(** What the browser does with an image file: the decoded image, or [None]
    when the [error] event fires, and the resampling of [drawImage]. *)
Record Browser := {
  decode : File -> option HTMLImageElement;
  raster : Rasterizer;
  getContext : bool
}.

(** [new ImageProcessor()] *)
Definition createImageProcessor (b : Browser) : completion ImageProcessor :=
  if getContext b then Return constructor
  else Throw (Error "Could not get 2D context from canvas").

(** [processImageFile(file)]: the promise resolves with the result or
    rejects; the processor is returned as the call leaves it. *)
Definition processImageFile (b : Browser) (file : File) (this : ImageProcessor)
  : completion ImageProcessingResult * ImageProcessor :=
  if negb (isValidImageFile file) then
    (Throw (Error "Invalid image file format"), this)
  else
    match decode b file with
    | Some img =>
        let (result, this') := processImageElement (raster b) img this in
        (Return result, this')
    | None => (Throw (Error "Failed to load image"), this)
    end.

(** [dispose()] of the processor *)
Definition dispose (this : ImageProcessor) : ImageProcessor :=
  {| canvas := clearRect 0 0 (canvas_width (canvas this)) (canvas_height (canvas this))
                 (canvas this) |}.

(** [getImageDimensions(file)] *)
Definition getImageDimensions (b : Browser) (file : File) : completion (number * number) :=
  match decode b file with
  | Some img => Return (Number_of_Z (img_width img), Number_of_Z (img_height img))
  | None => Throw (Error "Failed to load image")
  end.

End ImageFiles.

(** ** [src/app/api/predict/route.ts]: the server route *)

Module Route.

Import ImageFiles.

Record ImageAnalysis := {
  age : number;
  gender : Gender;
  ageConfidence : number;
  genderConfidence : number
}.

(** [simulateMLPrediction()], from the four numbers that [Math.random()]
    returns, in the order of the calls. *)
Definition simulateMLPrediction (r1 r2 r3 r4 : number) : ImageAnalysis :=
  let randomAge := (Math_floor (r1 * 60) + 20)%float in
  let randomGender := if gt r2 0.5%float then male else female in
  let ageConfidence := (0.7 + r3 * 0.25)%float in
  let genderConfidence := (0.75 + r4 * 0.2)%float in
  {| age := randomAge;
     gender := randomGender;
     ageConfidence := Math_min ageConfidence 0.95%float;
     genderConfidence := Math_min genderConfidence 0.95%float |}.

(** [uint8Array[i] === b] *)
Definition byte_is (a : list Z) (i : nat) (b : Z) : bool :=
  match nth_error a i with
  | Some x => x =? b
  | None => false
  end.

(** [processImage(arrayBuffer)] *)
Definition processImage (uint8Array : list Z) : completion bool :=
  let isPNG := byte_is uint8Array 0 137 && byte_is uint8Array 1 80
               && byte_is uint8Array 2 78 && byte_is uint8Array 3 71 in
  let isJPEG := byte_is uint8Array 0 255 && byte_is uint8Array 1 216
                && byte_is uint8Array 2 255 in
  let isWebP := byte_is uint8Array 8 87 && byte_is uint8Array 9 69
                && byte_is uint8Array 10 66 && byte_is uint8Array 11 80 in
  if negb isPNG && negb isJPEG && negb isWebP then
    Throw (Error ("Image processing failed: "
                  ++ message_or "Unknown error" (Error "Invalid image format")))
  else Return true.

(** [validateImage(file)] *)
Definition validateImage (rt : Numbers) (file : File) : Validation :=
  let maxSizeMB := 10%float in
  let maxSizeBytes := (maxSizeMB * 1024 * 1024)%float in
  if gt (size file) maxSizeBytes then
    {| isValid := false;
       error := Some ("File size too large. Maximum size is "
                      ++ toString rt maxSizeMB ++ "MB. Current size: "
                      ++ toFixed rt (size file / 1024 / 1024)%float 2 ++ "MB")%string |}
  else if negb (includes validTypes (toLowerCase (type file))) then
    {| isValid := false;
       error := Some "Invalid file format. Supported formats: JPEG, PNG, WebP"%string |}
  else {| isValid := true; error := None |}.

(** What [formData.get('image')] returns. *)
Inductive Entry :=
| Missing
| Text (s : string)
| Upload (file : File).

(** A request and what the runtime does while it is served: the form data
    or the failure to parse it, the failure to read the file, the two
    readings of the clock and the four random numbers. *)
Record Request := {
  formData : completion Entry;
  arrayBuffer_fails : option value;
  started : number;
  finished : number;
  random1 : number;
  random2 : number;
  random3 : number;
  random4 : number
}.

Record Data := {
  data_age : number;
  data_gender : Gender;
  data_ageConfidence : number;
  data_genderConfidence : number;
  processingTime : number
}.

Record Response := {
  status : Z;
  success : bool;
  data : option Data;
  error : option string
}.

(** The body of [try] in [POST], after the form data was parsed. *)
Definition serve (rt : Numbers) (request : Request) (entry : Entry) : completion Response :=
  match entry with
  | Missing | Text EmptyString =>
      Return {| status := 400; success := false; data := None;
                error := Some "No image file provided"%string |}
  | Text _ =>
      Throw (Error "Cannot read properties of undefined (reading 'toLowerCase')")
  | Upload file =>
      let validation := validateImage rt file in
      if negb (isValid validation) then
        Return {| status := 400; success := false; data := None;
                  error := ImageFiles.error validation |}
      else
        match arrayBuffer_fails request with
        | Some e => Throw e
        | None =>
            match processImage (bytes file) with
            | Throw e => Throw e
            | Return _ =>
                let prediction :=
                  simulateMLPrediction (random1 request) (random2 request)
                    (random3 request) (random4 request) in
                Return {| status := 200; success := true;
                          data := Some {| data_age := age prediction;
                                          data_gender := gender prediction;
                                          data_ageConfidence := ageConfidence prediction;
                                          data_genderConfidence := genderConfidence prediction;
                                          processingTime :=
                                            (finished request - started request)%float |};
                          error := None |}
            end
        end
  end.

(** [POST(request)] *)
Definition POST (rt : Numbers) (request : Request) : Response :=
  let attempt :=
    match formData request with
    | Return entry => serve rt request entry
    | Throw e => Throw e
    end in
  match attempt with
  | Return response => response
  | Throw e =>
      {| status := 500; success := false; data := None;
         error := Some (message_or "Internal server error" e) |}
  end.

(** [GET()], [PUT()] and [DELETE()] *)
Definition method_not_allowed : Response :=
  {| status := 405; success := false; data := None;
     error := Some "Method not allowed. Use POST to upload images."%string |}.

End Route.

(** ** [src/components/ModelLoader.tsx]: the polling observer *)

Module ModelLoader.

(** The component: the state it displays, whether its interval is still
    set, and the calls of [onLoadComplete] it made. *)
Record Component := {
  loadingState : ModelLoadingState;
  polling : bool;
  completed : list bool
}.

(** The effect, up to the call of [loadModels]. *)
Definition mount : Component :=
  {| loadingState :=
       {| isLoading := true; isLoaded := false; error := None; progress := 0 |};
     polling := true;
     completed := [] |}.

(** One tick of the interval, [currentState] being what
    [getModelLoadingState()] returns. *)
Definition tick (c : Component) (currentState : ModelLoadingState) : Component :=
  if polling c then
    if isLoaded currentState || truthy (error currentState) then
      {| loadingState := currentState; polling := false;
         completed := completed c ++ [isLoaded currentState] |}
    else
      {| loadingState := currentState; polling := true; completed := completed c |}
  else c.

(** The ticks of the interval, in order. *)
Definition poll (seen : list ModelLoadingState) : Component :=
  fold_left tick seen mount.

End ModelLoader.

(** ** The page: [handleImageSelect] *)

Module Page.

Import ImageFiles.

Record AnalysisState := {
  file : option File;
  preview : option HTMLCanvasElement;
  prediction : option AgeGenderPrediction;
  isProcessing : bool;
  error : option string
}.

(** The [try] block of [handleImageSelect]: the prediction, or the
    exception, and the state of the models. *)
Definition analyse (b : Browser) (env : Env) (f : File) (w : World)
  : completion AgeGenderPrediction * World :=
  match createImageProcessor b with
  | Throw e => (Throw e, w)
  | Return processor =>
      match processImageFile b f processor with
      | (Throw e, _) => (Throw e, w)
      | (Return result, _) => predict env (imageData result) w
      end
  end.

(** [handleImageSelect(file, preview)] *)
Definition handleImageSelect (b : Browser) (env : Env) (f : File)
    (p : HTMLCanvasElement) (w : World) : AnalysisState * World :=
  let selected :=
    {| file := Some f; preview := Some p; prediction := None;
       error := None; isProcessing := true |} in
  match analyse b env f w with
  | (Return result, w') =>
      ({| file := file selected; preview := preview selected;
          prediction := Some result; isProcessing := false;
          error := error selected |}, w')
  | (Throw e, w') =>
      ({| file := file selected; preview := preview selected;
          prediction := prediction selected; isProcessing := false;
          error := Some (message_or "Analysis failed" e) |}, w')
  end.

End Page.

(** ** Files, browsers and requests to run the code on *)

Module Cases.

Import ImageFiles.

(** A runtime whose conversions print nothing. *)
Definition silent : Numbers :=
  {| Math_log := fun x => x;
     Math_pow := fun x _ => x;
     toFixed := fun _ _ => EmptyString;
     parseFloat := fun _ => 0%float;
     toString := fun _ => EmptyString |}.

(** A PNG file of 2048 bytes, of which the first sixteen are given. *)
Definition png : File :=
  {| size := 2048%float;
     type := "image/png";
     bytes := [137; 80; 78; 71; 13; 10; 26; 10; 0; 0; 0; 13; 73; 72; 68; 82] |}.

(** A PNG file of 11 MiB. *)
Definition large_png : File :=
  {| size := 11534336%float; type := "image/png"; bytes := bytes png |}.

(** A GIF file that is declared as a PNG file. *)
Definition mislabelled : File :=
  {| size := 2048%float;
     type := "image/PNG";
     bytes := [71; 73; 70; 56; 57; 97; 1; 0; 1; 0; 128; 0] |}.

(** A browser that decodes every file to a photo of 640 by 480 pixels. *)
Definition browser : Browser :=
  {| decode := fun _ => Some (Scenario.photo 640 480);
     raster := Scenario.flat;
     getContext := true |}.

(** A request that uploads [file] and takes 12 ms to serve. *)
Definition upload (file : File) : Route.Request :=
  {| Route.formData := Return (Route.Upload file);
     Route.arrayBuffer_fails := None;
     Route.started := 1000%float;
     Route.finished := 1012%float;
     Route.random1 := 0.5%float;
     Route.random2 := 0.25%float;
     Route.random3 := 0.999%float;
     Route.random4 := 0.125%float |}.

End Cases.

(** ** Vocabulary for the tensors *)

(** Tensor [t] is allocated. *)
Definition isLive (t : nat) (e : Tf.Engine) : bool := existsb (Nat.eqb t) (Tf.live e).

(** The tensor that [tf.browser.fromPixels] makes of an image data. *)
Definition pixels_tensor (n : nat) (imageData : ImageData) : Tf.Tensor :=
  {| Tf.id := n; Tf.shape := [height imageData; width imageData; 3];
     Tf.values := rgb imageData |}.

(** * Properties *)

(** ** Numbers *)

Section Rounding.

(** Rounding a non-negative mantissa never gives NaN. *)
Lemma iter_shr_1_nonneg p :
  forall mrs, 0 <= shr_m mrs -> 0 <= shr_m (SpecFloat.iter_pos shr_1 p mrs).
Proof.
  induction p; intros mrs H; simpl.
  - apply IHp, IHp. destruct mrs as [m r s]; destruct m as [|[q|q|]|q]; simpl in *; lia.
  - apply IHp, IHp, H.
  - destruct mrs as [m r s]; destruct m as [|[q|q|]|q]; simpl in *; lia.
Qed.

Lemma shr_fexp_nonneg m e l :
  0 <= m -> 0 <= shr_m (fst (shr_fexp prec emax m e l)).
Proof.
  intros H. unfold shr_fexp, shr.
  destruct (fexp prec emax (Zdigits2 m + e) - e); simpl;
    try apply iter_shr_1_nonneg; destruct l as [|[| |]]; simpl; exact H.
Qed.

Lemma round_nearest_even_nonneg m l : 0 <= m -> 0 <= round_nearest_even m l.
Proof.
  intros H. destruct l as [|[| |]]; simpl; try lia. destruct (Z.even m); lia.
Qed.

Lemma binary_round_aux_not_nan s m e l :
  0 <= m -> binary_round_aux prec emax s m e l <> S754_nan.
Proof.
  intros H. unfold binary_round_aux.
  pose proof (shr_fexp_nonneg m e l H) as H1.
  destruct (shr_fexp prec emax m e l) as [mrs' e'] eqn:E1. simpl in H1.
  pose proof (shr_fexp_nonneg _ e' loc_Exact
                (round_nearest_even_nonneg _ (loc_of_shr_record mrs') H1)) as H2.
  destruct (shr_fexp prec emax
              (round_nearest_even (shr_m mrs') (loc_of_shr_record mrs')) e' loc_Exact)
    as [mrs'' e''] eqn:E2. simpl in H2.
  destruct (shr_m mrs'') as [|q|q]; try discriminate; try lia.
  destruct (e'' <=? emax - prec); discriminate.
Qed.

Lemma binary_normalize_not_nan m e z : binary_normalize prec emax m e z <> S754_nan.
Proof.
  destruct m as [|p|p]; simpl; try discriminate; unfold binary_round;
    destruct (shl_align _ _ _) as [mz ez]; apply binary_round_aux_not_nan; lia.
Qed.

Lemma SFmul_not_nan x s m e :
  x <> S754_nan -> SF64mul x (S754_finite s m e) <> S754_nan.
Proof.
  intros Hx. destruct x as [sx|sx| |sx mx ex]; simpl; try discriminate; try congruence.
  apply binary_round_aux_not_nan; lia.
Qed.

Lemma SFadd_not_nan x s m e :
  x <> S754_nan -> SF64add x (S754_finite s m e) <> S754_nan.
Proof.
  intros Hx. destruct x as [sx|sx| |sx mx ex]; simpl; try discriminate; try congruence.
  apply binary_normalize_not_nan.
Qed.

(** The mantissa of a binary64 number has at most 53 bits. *)
Lemma digits2_pos_bound m : Zpos m < 2 ^ Zpos (digits2_pos m).
Proof.
  induction m as [p IH|p IH|]; cbn [digits2_pos];
    rewrite ?Pos2Z.inj_succ, ?Z.pow_succ_r by lia; lia.
Qed.

Lemma valid_mantissa_bound s m e :
  valid_binary (S754_finite s m e) = true -> Zpos m < 2 ^ 53.
Proof.
  unfold SpecFloat.valid_binary, bounded, canonical_mantissa, fexp.
  intros H. apply andb_prop in H. destruct H as [H _].
  apply Z.eqb_eq in H.
  assert (Hd : Zpos (digits2_pos m) <= 53) by (unfold prec, emin, emax in H; lia).
  eapply Z.lt_le_trans; [apply digits2_pos_bound|].
  apply Z.pow_le_mono_r; lia.
Qed.

End Rounding.

Section Comparisons.

Lemma SFcompare_refl x : x <> S754_nan -> SFcompare x x = Some Eq.
Proof.
  destruct x as [s|s| |s m e]; try destruct s; simpl; intros H;
    rewrite ?Z.compare_refl, ?Pos.compare_cont_refl; simpl; congruence.
Qed.

Lemma SFcompare_antisym x y :
  SFcompare y x = option_map CompOpp (SFcompare x y).
Proof.
  destruct x as [sx|sx| |sx mx ex], y as [sy|sy| |sy my ey];
    try destruct sx; try destruct sy; simpl; try reflexivity;
    rewrite (Z.compare_antisym ex ey); destruct (ex ?= ey); simpl; try reflexivity;
    rewrite (Pos.compare_cont_antisym mx my Eq); reflexivity.
Qed.

Lemma SFcompare_Some x y :
  x <> S754_nan -> y <> S754_nan -> exists c, SFcompare x y = Some c.
Proof.
  destruct x as [sx|sx| |sx mx ex], y as [sy|sy| |sy my ey]; simpl; intros Hx Hy;
    try congruence; eauto.
Qed.

Lemma isNaN_spec x : isNaN x = true <-> Prim2SF x = S754_nan.
Proof.
  unfold isNaN, is_nan. rewrite FloatAxioms.eqb_spec. unfold SFeqb.
  destruct (Prim2SF x) as [s|s| |s m e] eqn:E;
    try (rewrite SFcompare_refl by discriminate);
    simpl; split; try discriminate; reflexivity.
Qed.

Lemma isNaN_false x : isNaN x = false <-> Prim2SF x <> S754_nan.
Proof.
  rewrite <- isNaN_spec. destruct (isNaN x); split; congruence.
Qed.

End Comparisons.

Section Ordering.

Local Open Scope float_scope.

(** Two numbers that are not NaN are ordered in exactly one of three ways,
    and all six comparisons follow from it. *)
Lemma trichotomy a b :
  isNaN a = false -> isNaN b = false ->
  ((a <? b) = true /\ (b <? a) = false /\ (a =? b) = false /\ (b =? a) = false /\
   (a <=? b) = true /\ (b <=? a) = false) \/
  ((a <? b) = false /\ (b <? a) = false /\ (a =? b) = true /\ (b =? a) = true /\
   (a <=? b) = true /\ (b <=? a) = true) \/
  ((a <? b) = false /\ (b <? a) = true /\ (a =? b) = false /\ (b =? a) = false /\
   (a <=? b) = false /\ (b <=? a) = true).
Proof.
  rewrite !isNaN_false. intros Ha Hb.
  destruct (SFcompare_Some _ _ Ha Hb) as [c Hc].
  rewrite !ltb_spec, !FloatAxioms.eqb_spec, !leb_spec.
  unfold SFltb, SFeqb, SFleb. rewrite (SFcompare_antisym (Prim2SF a) (Prim2SF b)), Hc.
  destruct c; simpl; auto 15.
Qed.

Lemma eqb_not_NaN a b : (a =? b) = true -> isNaN a = false /\ isNaN b = false.
Proof.
  rewrite FloatAxioms.eqb_spec, !isNaN_false. unfold SFeqb.
  intros H; split; intros E; rewrite E in H; [|destruct (Prim2SF a)];
    simpl in H; discriminate.
Qed.

Lemma eqb_refl a : isNaN a = false -> (a =? a) = true.
Proof.
  intros H. unfold isNaN, is_nan in H. destruct (a =? a); [reflexivity|discriminate].
Qed.

Lemma is_zero_eqb a b : is_zero a = true -> is_zero b = true -> (a =? b) = true.
Proof.
  unfold is_zero. rewrite !FloatAxioms.eqb_spec.
  change (Prim2SF zero) with (S754_zero false). unfold SFeqb.
  destruct (Prim2SF a) as [s|s| |s ? ?], (Prim2SF b) as [s'|s'| |s' ? ?];
    try destruct s; try destruct s'; simpl; intros H1 H2; try discriminate; reflexivity.
Qed.

(** [Math.max] of two numbers returns one of them, the other being no
    larger. *)
Lemma Math_max_cases a b :
  isNaN a = false -> isNaN b = false ->
  (Math_max a b = b /\ (a <=? b) = true) \/
  (Math_max a b = a /\ (b <=? a) = true).
Proof.
  intros Ha Hb. unfold Math_max. rewrite Ha, Hb. cbn [orb].
  destruct (isPosZero b && isNegZero a) eqn:Z.
  - left. split; [reflexivity|].
    apply andb_prop in Z. destruct Z as [Zb Za].
    apply andb_prop in Zb. apply andb_prop in Za.
    pose proof (is_zero_eqb a b (proj1 Za) (proj1 Zb)) as E.
    destruct (trichotomy a b Ha Hb) as [T|[T|T]];
      destruct T as (_ & _ & T3 & _ & T5 & _); congruence.
  - destruct (trichotomy a b Ha Hb) as [T|[T|T]];
      destruct T as (T1 & _ & _ & _ & T5 & T6); rewrite T1; auto.
Qed.

(** The affine map of the age is a number when the raw scalar is. *)
Lemma affine_not_NaN raw : isNaN raw = false -> isNaN (raw * 100 + 25) = false.
Proof.
  rewrite !isNaN_false. intros H.
  rewrite add_spec, mul_spec.
  change (Prim2SF 100) with (S754_finite false 7036874417766400 (-46)).
  change (Prim2SF 25) with (S754_finite false 7036874417766400 (-48)).
  apply SFadd_not_nan, SFmul_not_nan, H.
Qed.

(** The clamp [Math.max(0, Math.min(100, x))] is [+0], 100, or [x] itself
    when [x] lies strictly between them. *)
Lemma clamp_cases x :
  isNaN x = false ->
  Math_max 0 (Math_min 100 x) = 0 \/
  Math_max 0 (Math_min 100 x) = 100 \/
  (Math_max 0 (Math_min 100 x) = x /\ (0 <? x) = true /\ (x <? 100) = true).
Proof.
  intros Hx. unfold Math_min.
  change (isNaN 100) with false. change (isPosZero 100) with false.
  rewrite Hx, andb_false_r. cbn [orb].
  destruct (x <? 100) eqn:Hlt.
  - unfold Math_max. change (isNaN 0) with false. change (isNegZero 0) with false.
    rewrite Hx, andb_false_r. cbn [orb].
    destruct (0 <? x) eqn:Hpos; auto.
  - right; left. reflexivity.
Qed.

End Ordering.

Section RoundHalfUp.

Lemma round_half_up_range m e :
  e < 0 -> Zpos m <= 100 * 2 ^ (- e) -> 0 <= round_half_up false m e <= 100.
Proof.
  intros He Hm. unfold round_half_up. cbn [cond_Zopp].
  assert (Hd : 0 < 2 ^ (- e)) by (apply Z.pow_pos_nonneg; lia).
  split.
  - apply Z.div_pos; lia.
  - apply Z.lt_succ_r. apply Z.div_lt_upper_bound; lia.
Qed.

(** Rounding a clamped number gives an integer from 0 to 100. *)
Lemma round_clamp_integer x :
  isNaN x = false ->
  Spec.integer_in 0 100 (Math_round (Math_max 0%float (Math_min 100%float x))).
Proof.
  intros Hx. destruct (clamp_cases x Hx) as [H|[H|(H & Hpos & Hlt)]]; rewrite H.
  - exists 0. split; [lia|vm_compute; reflexivity].
  - exists 100. split; [lia|vm_compute; reflexivity].
  - rewrite ltb_spec in Hpos, Hlt.
    change (Prim2SF 0%float) with (S754_zero false) in Hpos.
    change (Prim2SF 100%float) with (S754_finite false 7036874417766400 (-46)) in Hlt.
    pose proof (Prim2SF_valid x) as Hv.
    unfold Math_round.
    destruct (Prim2SF x) as [s|s| |s m e]; try discriminate.
    + destruct s; discriminate.
    + destruct s; try discriminate.
      unfold SFltb, SFcompare in Hlt.
      pose proof (valid_mantissa_bound _ _ _ Hv) as Hm.
      assert (He : e < 0 /\ Zpos m <= 100 * 2 ^ (- e)).
      { destruct (Z.compare_spec e (-46)) as [E|E|E]; try discriminate.
        - subst e. split; [lia|].
          destruct (Pos.compare_cont Eq m 7036874417766400) eqn:C; try discriminate.
          apply (proj1 (Pos.compare_lt_iff m 7036874417766400)) in C.
          assert (C' : Zpos m < 7036874417766400) by exact C. clear C.
          change (2 ^ (- -46)) with 70368744177664. lia.
        - split; [lia|].
          assert (2 ^ 47 <= 2 ^ (- e)) by (apply Z.pow_le_mono_r; lia).
          change (2 ^ 53) with (64 * 2 ^ 47) in Hm. lia. }
      destruct He as [He Hle].
      destruct (0 <=? e) eqn:E0; [apply Z.leb_le in E0; lia|].
      exists (round_half_up false m e). split; [apply round_half_up_range; assumption|].
      destruct (round_half_up false m e =? 0) eqn:Ez; [|reflexivity].
      apply Z.eqb_eq in Ez. rewrite Ez. vm_compute. reflexivity.
Qed.

(** [floor (v + 1/2)] is at a distance of at most 1/2 from [v]. *)
Lemma round_half_up_nearest s m e :
  e < 0 ->
  Z.abs (2 * cond_Zopp s (Zpos m) * 2 ^ Z.max e 0
         - 2 * round_half_up s m e * 2 ^ Z.max (- e) 0) <= 2 ^ Z.max (- e) 0.
Proof.
  intros He. rewrite (Z.max_r e 0), (Z.max_l (- e) 0) by lia.
  unfold round_half_up. set (v := cond_Zopp s (Zpos m)). set (d := 2 ^ (- e)).
  assert (Hd : 0 < d) by (apply Z.pow_pos_nonneg; lia).
  pose proof (Z.div_mod (2 * v + d) (2 * d) ltac:(lia)) as E.
  pose proof (Z.mod_pos_bound (2 * v + d) (2 * d) ltac:(lia)) as B.
  change (2 ^ 0) with 1. nia.
Qed.

End RoundHalfUp.

Section Nearest.

Local Open Scope float_scope.

(** The clamp of the source is the clamp of the specification. *)
Lemma clamp_clamped x :
  isNaN x = false -> Spec.clamped 0 100 x (Math_max 0 (Math_min 100 x)).
Proof.
  intros Hx. unfold Spec.clamped, Math_min.
  change (isNaN 100) with false. change (isPosZero 100) with false.
  rewrite Hx, andb_false_r. cbn [orb].
  destruct (trichotomy x 100 Hx eq_refl) as [T|[T|T]];
    destruct T as (T1 & _ & _ & _ & _ & T6); rewrite T1; auto.
  unfold Math_max. change (isNaN 0) with false. change (isNegZero 0) with false.
  rewrite Hx, andb_false_r. cbn [orb].
  destruct (trichotomy 0 x eq_refl Hx) as [U|[U|U]];
    destruct U as (U1 & _ & _ & _ & _ & U6); rewrite U1; auto.
Qed.

(** Rounding a clamped number gives a nearest integer, from 0 to 100. *)
Lemma round_clamp_nearest x (c := Math_max 0 (Math_min 100 x)) :
  isNaN x = false ->
  Spec.nearest_integer c (Math_round c) /\ Spec.integer_in 0 100 (Math_round c).
Proof.
  intros Hx. split; [|apply round_clamp_integer, Hx]. subst c.
  destruct (clamp_cases x Hx) as [H|[H|(H & Hpos & Hlt)]]; rewrite H.
  - exists 0%Z. split; vm_compute; reflexivity.
  - exists 100%Z. split; [vm_compute; reflexivity|]. vm_compute. discriminate.
  - rewrite ltb_spec in Hpos, Hlt.
    change (Prim2SF 0) with (S754_zero false) in Hpos.
    change (Prim2SF 100) with (S754_finite false 7036874417766400 (-46)) in Hlt.
    pose proof (Prim2SF_valid x) as Hv.
    unfold Spec.nearest_integer, Math_round.
    destruct (Prim2SF x) as [s|s| |s m e]; try discriminate.
    + destruct s; discriminate.
    + destruct s; try discriminate.
      unfold SFltb, SFcompare in Hlt.
      pose proof (valid_mantissa_bound _ _ _ Hv) as Hm.
      assert (He : (e < 0)%Z).
      { destruct (Z.compare_spec e (-46)) as [E|E|E]; try discriminate; lia. }
      destruct (0 <=? e)%Z eqn:E0; [apply Z.leb_le in E0; lia|].
      exists (round_half_up false m e).
      split; [|apply round_half_up_nearest, He].
      destruct (round_half_up false m e =? 0)%Z eqn:Ez; [|reflexivity].
      apply Z.eqb_eq in Ez. rewrite Ez. vm_compute. reflexivity.
Qed.

(** The integers from 0 to 100 are numbers. *)
Lemma small_integer_not_NaN n : (0 <= n <= 100)%Z -> isNaN (Number_of_Z n) = false.
Proof.
  intros Hn.
  assert (H : forallb (fun k => negb (isNaN (Number_of_Z (Z.of_nat k)))) (seq 0 101) = true)
    by (vm_compute; reflexivity).
  rewrite forallb_forall in H. specialize (H (Z.to_nat n)).
  rewrite Z2Nat.id in H by lia. apply negb_true_iff, H, in_seq. lia.
Qed.

End Nearest.

(** ** Statements that return *)

Section Statements.

Context {A B : Type}.

Lemma bind_Return (c : M A) (k : A -> M B) w b w' :
  bind c k w = (Return b, w') ->
  exists a w1, c w = (Return a, w1) /\ k a w1 = (Return b, w').
Proof.
  unfold bind. destruct (c w) as [[a|e] w1]; intros H; [eauto|discriminate].
Qed.

Lemma try_catch_Return (body : M A) (handler : value -> M A) w a w' :
  try_catch body handler w = (Return a, w') ->
  body w = (Return a, w') \/
  exists e w1, body w = (Throw e, w1) /\ handler e w1 = (Return a, w').
Proof.
  unfold try_catch. destruct (body w) as [[x|e] w1]; intros H;
    [left; exact H|right; eauto].
Qed.

Lemma computed_Return (r : completion A) w a w' :
  computed r w = (Return a, w') -> r = Return a.
Proof.
  destruct r; unfold computed, ret, throw; intros H; inversion H; auto.
Qed.

End Statements.

Section ForwardPasses.

Lemma makeTensor_values sh vs w t w' :
  makeTensor sh vs w = (Return t, w') -> Tf.values t = vs.
Proof.
  unfold makeTensor. simpl. intros H. inversion H. reflexivity.
Qed.

(** A forward pass that returns gives a tensor holding what the model
    computed. *)
Lemma forward_Return env model input w t w' :
  forward env model input w = (Return t, w') ->
  exists h, model = Some h /\ model_predict env h input = Return (Tf.values t).
Proof.
  destruct model as [h|]; [|discriminate]. cbn [forward].
  intros H. apply bind_Return in H. destruct H as (_ & w1 & _ & H).
  apply bind_Return in H. destruct H as (out & w2 & H1 & H2).
  apply computed_Return in H1. apply makeTensor_values in H2.
  exists h. rewrite H2. auto.
Qed.

Lemma data_of_Return env t w vs w' :
  data_of env t w = (Return vs, w') -> vs = Tf.values t.
Proof.
  unfold data_of. intros H. apply bind_Return in H. destruct H as (_ & w1 & _ & H).
  destruct (Tf.isDisposed (Tf.id t) (engine w1)); [discriminate|].
  apply bind_Return in H. destruct H as (_ & w2 & _ & H).
  unfold ret in H. inversion H. reflexivity.
Qed.

(** A prediction that succeeds is computed from the outputs of the two
    forward passes on the preprocessed image. *)
Lemma predict_Return env imageData w r w' :
  predict env imageData w = (Return r, w') ->
  exists a g input w1 ageValue genderProbs,
    ageModel (modelManager w) = Some a /\
    genderModel (modelManager w) = Some g /\
    preprocessImage env imageData w = (Return input, w1) /\
    model_predict env a input = Return ageValue /\
    model_predict env g input = Return genderProbs /\
    r = prediction_of env ageValue genderProbs.
Proof.
  unfold predict.
  destruct (negb (isInitialized (modelManager w)) || is_null (ageModel (modelManager w))
            || is_null (genderModel (modelManager w))); [discriminate|].
  intros H. apply bind_Return in H. destruct H as (input & w1 & Hpre & H).
  apply try_catch_Return in H. destruct H as [H|(e & w2 & _ & H)].
  - apply bind_Return in H. destruct H as (tAge & w2 & HfA & H).
    apply bind_Return in H. destruct H as (ageValue & w3 & HdA & H).
    apply bind_Return in H. destruct H as (tGender & w4 & HfG & H).
    apply bind_Return in H. destruct H as (genderProbs & w5 & HdG & H).
    apply bind_Return in H. destruct H as (_ & w6 & _ & H).
    apply bind_Return in H. destruct H as (_ & w7 & _ & H).
    apply bind_Return in H. destruct H as (_ & w8 & _ & H).
    apply forward_Return in HfA. destruct HfA as (a & Ha & HmA).
    apply forward_Return in HfG. destruct HfG as (g & Hg & HmG).
    apply data_of_Return in HdA. apply data_of_Return in HdG. subst ageValue genderProbs.
    exists a, g, input, w1, (Tf.values tAge), (Tf.values tGender).
    unfold ret in H. inversion H. unfold prediction_of. auto 10.
  - apply bind_Return in H. destruct H as (_ & w3 & _ & H). discriminate.
Qed.

(** The guard of [predict]. *)
Lemma predict_guard env imageData w :
  Spec.isReady w = false -> predict env imageData w = (Throw NotLoaded, w).
Proof.
  unfold Spec.isReady, predict. intros H.
  destruct (isInitialized (modelManager w)), (ageModel (modelManager w)),
    (genderModel (modelManager w)); cbn in *; try reflexivity; discriminate.
Qed.

End ForwardPasses.

Section Labels.

Local Open Scope float_scope.

Lemma leb_refl a : isNaN a = false -> (a <=? a) = true.
Proof.
  intros H. destruct (trichotomy a a H H) as [T|[T|T]];
    destruct T as (T1 & T2 & _ & _ & T5 & _); congruence.
Qed.

(** The label and the confidence of [predict] on a probability vector. *)
Lemma label_is_argmax pMale pFemale (l := if gt pMale pFemale then male else female) :
  isNaN pMale = false -> isNaN pFemale = false ->
  (forall k, (Spec.probability k pMale pFemale <=? Spec.probability l pMale pFemale) = true) /\
  (Math_max pMale pFemale =? Spec.probability l pMale pFemale) = true /\
  (pMale <=? Math_max pMale pFemale) = true /\
  (pFemale <=? Math_max pMale pFemale) = true.
Proof.
  intros Hm Hf. subst l. unfold gt.
  pose proof (leb_refl _ Hm) as Rm. pose proof (leb_refl _ Hf) as Rf.
  pose proof (eqb_refl _ Hm) as Em. pose proof (eqb_refl _ Hf) as Ef.
  destruct (Math_max_cases pMale pFemale Hm Hf) as [[-> Hle]|[-> Hle]];
    destruct (trichotomy pMale pFemale Hm Hf) as [T|[T|T]];
    destruct T as (T1 & T2 & T3 & T4 & T5 & T6); rewrite T2; cbn [Spec.probability];
    repeat split; try (intros [|]; cbn [Spec.probability]); congruence.
Qed.

End Labels.

(** ** The loader *)

Section Loader.

Ltac run_statements :=
  cbv [after_ready after_age_warm_up after_gender_warm_up in_try bind external computed
       ret throw update on_engine createAgeModel createGenderModel createModel zeros
       makeTensor forward this exec load_catch load_finally dispose_tensor
       Tf.makeTensor Tf.makeModel Tf.log Tf.disposeTensor Tf.release
       set_progress set_error set_isLoading set_isLoaded set_isInitialized
       set_ageModel set_genderModel set_loadingState
       modelManager engine loadingState isLoading isLoaded error progress
       ageModel genderModel isInitialized fst snd
       Tf.nextTensor Tf.live Tf.released Tf.nextModel Tf.liveModels Tf.releasedModels Tf.calls].

Ltac case_env :=
  repeat match goal with
  | |- context [match tf_ready ?e with _ => _ end] => destruct (tf_ready e); run_statements
  | |- context [match createAgeModel_throws ?e with _ => _ end] => destruct (createAgeModel_throws e); run_statements
  | |- context [match createGenderModel_throws ?e with _ => _ end] => destruct (createGenderModel_throws e); run_statements
  | |- context [match tf_zeros ?e with _ => _ end] => destruct (tf_zeros e); run_statements
  | |- context [match model_predict ?e ?h ?t with _ => _ end] => destruct (model_predict e h t); run_statements
  | |- context [if Tf.isDisposed ?t ?e then _ else _] => destruct (Tf.isDisposed t e); run_statements
  end.

Lemma models_from_refl w : models_from w w.
Proof.
  split; [lia|]. split; [reflexivity|].
  intros h. split; [auto|intros [H|H]; [exact H|lia]].
Qed.

Lemma models_from_trans w1 w2 w3 :
  models_from w1 w2 -> models_from w2 w3 -> models_from w1 w3.
Proof.
  intros (A1 & B1 & C1) (A2 & B2 & C2).
  split; [lia|]. split; [congruence|]. intros h. rewrite C2, C1. split.
  - intros [[H|H]|H]; [left; exact H|right; lia|right; lia].
  - intros [H|H]; [tauto|].
    destruct (Nat.lt_ge_cases h (Tf.nextModel (engine w2))); [left; right; lia|right; lia].
Qed.

Lemma begin_spec w :
  isInitialized (modelManager w) = false ->
  exists w0, begin w = Some w0 /\
    isInitialized (modelManager w0) = false /\
    getLoadingState w0 =
      {| isLoading := true; isLoaded := isLoaded (state_of w); error := None; progress := 0 |} /\
    models_from w w0 /\
    Tf.calls (engine w0) = Tf.calls (engine w) ++ [Tf.ready].
Proof.
  destruct w as [[am gm init [ld lded err pr]] eng]. cbn. intros ->.
  eexists. split; [reflexivity|]. cbn.
  split; [reflexivity|]. split; [reflexivity|]. split; [|reflexivity].
  split; [cbn; lia|]. split; [reflexivity|].
  intros h. cbn. split; [auto|intros [H|H]; [exact H|lia]].
Qed.

Ltac settle :=
  cbn; repeat split; eauto 10; intros; rewrite ?in_app_iff in *; cbn in *;
  try lia; try tauto; intuition lia.

Lemma after_ready_spec env w :
  isInitialized (modelManager w) = false ->
  let (w', r) := after_ready env w in
  isLoaded (state_of w') = isLoaded (state_of w) /\ models_from w w' /\
  match r with
  | inl _ => suspended_with 90 w w'
  | inr c =>
      exists e, c = Some e /\ failed_with e w' /\
                In (progress (state_of w')) [progress (state_of w); 20; 60; 90]
  end.
Proof.
  destruct w as [[am gm init [ld lded err pr]] [nt lv rl nm lm rm cl]]. cbn. intros ->.
  unfold failed_with, suspended_with, models_from, state_of. run_statements. case_env.
  all: settle.
Qed.

Lemma after_age_warm_up_spec env d w :
  isInitialized (modelManager w) = false ->
  let (w', r) := after_age_warm_up env d w in
  isLoaded (state_of w') = isLoaded (state_of w) /\ models_from w w' /\
  match r with
  | inl _ => suspended_with (progress (state_of w)) w w'
  | inr c =>
      exists e, c = Some e /\ failed_with e w' /\
                progress (state_of w') = progress (state_of w)
  end.
Proof.
  destruct w as [[am gm init [ld lded err pr]] [nt lv rl nm lm rm cl]]. cbn. intros ->.
  unfold failed_with, suspended_with, models_from, state_of. run_statements.
  destruct gm as [g|]; run_statements; case_env.
  all: settle.
Qed.

Lemma after_gender_warm_up_spec d w :
  let (w', c) := after_gender_warm_up d w in
  c = None /\ models_from w w' /\
  isInitialized (modelManager w') = true /\
  getLoadingState w' =
    {| isLoading := false; isLoaded := true; error := error (state_of w); progress := 100 |}.
Proof.
  destruct w as [[am gm init [ld lded err pr]] [nt lv rl nm lm rm cl]].
  unfold models_from, state_of, getLoadingState. run_statements. case_env.
  all: settle.
Qed.

Lemma getLoadingState_eta w :
  getLoadingState w =
    {| isLoading := isLoading (state_of w); isLoaded := isLoaded (state_of w);
       error := error (state_of w); progress := progress (state_of w) |}.
Proof. reflexivity. Qed.

(** The two courses of a call of [loadModels] that passes the guard. *)
Lemma load_outcomes env w (l := isLoaded (state_of w)) :
  isInitialized (modelManager w) = false ->
  let r := loadModels env w in
  models_from w (final r) /\
  ((caught r = None /\
    samples r = [Loading l 0; Loading l 90; Loading l 90] /\
    isInitialized (modelManager (final r)) = true /\
    getLoadingState (final r) =
      {| isLoading := false; isLoaded := true; error := None; progress := 100 |})
   \/
   (exists e p,
      caught r = Some e /\ failed_with e (final r) /\
      getLoadingState (final r) =
        {| isLoading := false; isLoaded := l;
           error := Some (message_or "Failed to load models" e); progress := p |} /\
      ((samples r = [Loading l 0] /\ In p [0; 20; 60; 90]) \/
       (samples r = [Loading l 0; Loading l 90] /\ p = 90)))).
Proof.
  intros Hinit. unfold loadModels.
  destruct (begin_spec w Hinit) as (w0 & -> & I0 & S0 & M0 & _).
  rewrite S0. fold l. fold (Loading l 0).
  assert (F0 : isLoading (state_of w0) = true /\ isLoaded (state_of w0) = l /\
               error (state_of w0) = None /\ progress (state_of w0) = 0).
  { rewrite getLoadingState_eta in S0. inversion S0. auto. }
  destruct F0 as (Ld0 & L0 & E0 & P0).
  pose proof (after_ready_spec env w0 I0) as H1.
  destruct (after_ready env w0) as [w1 [d|c]].
  - destruct H1 as (L1 & M1 & I1 & Ld1 & E1 & P1).
    assert (S1 : getLoadingState w1 = Loading l 90).
    { rewrite getLoadingState_eta, Ld1, L1, E1, P1, Ld0, L0, E0. reflexivity. }
    pose proof (after_age_warm_up_spec env d w1 I1) as H2.
    destruct (after_age_warm_up env d w1) as [w2 [d'|c]].
    + destruct H2 as (L2 & M2 & I2 & Ld2 & E2 & P2).
      assert (S2 : getLoadingState w2 = Loading l 90).
      { rewrite getLoadingState_eta, Ld2, L2, E2, P2, Ld1, L1, E1, P1, Ld0, L0, E0. reflexivity. }
      pose proof (after_gender_warm_up_spec d' w2) as H3.
      destruct (after_gender_warm_up d' w2) as [w3 c].
      destruct H3 as (-> & M3 & I3 & S3). cbn [final samples caught].
      split; [eauto using models_from_trans|].
      left. rewrite S1, S2, S3, E2, E1, E0. auto.
    + destruct H2 as (L2 & M2 & e & -> & (I2 & Ld2 & E2) & P2). cbn [final samples caught].
      split; [eauto using models_from_trans|].
      right. exists e, 90. rewrite S1. repeat split; auto.
      rewrite getLoadingState_eta, Ld2, L2, E2, P2, L1, L0, P1. reflexivity.
  - destruct H1 as (L1 & M1 & e & -> & (I1 & Ld1 & E1) & P1). cbn [final samples caught].
    split; [eauto using models_from_trans|].
    right. exists e, (progress (state_of w1)). repeat split; auto.
    + rewrite getLoadingState_eta, Ld1, L1, E1, L0. reflexivity.
    + left. split; [reflexivity|]. rewrite P0 in P1. cbn in P1 |- *. tauto.
Qed.

End Loader.

(** ** The claims on the loader *)

Section LoaderClaims.




(** What the observer of a first load sees when it succeeds, and when the
    construction of the gender model throws. *)
Example observations_of_a_first_load :
  map progress (observations (loadModels Scenario.works initial)) = [0; 90; 90; 100] /\
  map isLoaded (observations (loadModels Scenario.works initial))
  = [false; false; false; true] /\
  map progress (observations (loadModels Scenario.gender_model_fails initial)) = [0; 60].
Proof. vm_compute. auto. Qed.


(** When that new load fails, the state it leaves has [isLoaded] true, an
    error and progress 0. *)
Example failed_reload_after_dispose :
  getLoadingState (final (loadModels Scenario.no_backend Scenario.disposed_world)) =
  {| isLoading := false; isLoaded := true;
     error := Some "No backend found in registry."%string; progress := 0 |}.
Proof. vm_compute. reflexivity. Qed.

(** C4, as amended.  When the [try] block of [loadModels] throws, the call
    ends with the message of the exception in [error] (the fixed message
    for a value that is not an [Error]), [isLoading] false, [isLoaded] as it
    was and [isInitialized] false, so that [predict] keeps answering that
    the models are not loaded; no model is disposed, and every model
    constructed before the failure remains allocated. *)
Theorem load_failure_is_recorded env w e :
  isInitialized (modelManager w) = false ->
  caught (loadModels env w) = Some e ->
  let w' := final (loadModels env w) in
  error (getLoadingState w') = Some (message_or "Failed to load models" e) /\
  isLoading (getLoadingState w') = false /\
  isLoaded (getLoadingState w') = isLoaded (state_of w) /\
  isInitialized (modelManager w') = false /\
  Tf.releasedModels (engine w') = Tf.releasedModels (engine w) /\
  (forall h, In h (Spec.constructed w w') -> In h (Tf.liveModels (engine w'))) /\
  (forall env' imageData, predict env' imageData w' = (Throw NotLoaded, w')).
Proof.
  intros Hi Hc.
  destruct (load_outcomes env w Hi)
    as ((_ & HR & HM) & [(Hc' & _)|(e' & p & Hc' & (I & _ & _) & Hf & _)]);
    [congruence|].
  assert (e' = e) as -> by congruence.
  cbn zeta. rewrite Hf. cbn [error isLoading isLoaded]. repeat split; auto.
  - intros h Hh. apply in_seq in Hh. apply HM. right. lia.
  - intros env' imageData. apply predict_guard. unfold Spec.isReady. rewrite I. reflexivity.
Qed.

Lemma gender_model_failure_is_recorded :
  error (getLoadingState (final (loadModels Scenario.gender_model_fails initial)))
  = Some "Failed to compile fragment shader."%string /\
  Tf.liveModels (engine (final (loadModels Scenario.gender_model_fails initial)))
  = [0%nat].
Proof.
  destruct (load_failure_is_recorded Scenario.gender_model_fails initial
              (Error "Failed to compile fragment shader.") eq_refl eq_refl)
    as (H & _).
  split; [exact H|reflexivity].
Defined.

(** C4, as stated, fails: when the construction of the gender model throws,
    the age model stays in the manager, allocated, and the gender model is
    missing. *)
Lemma failed_load_keeps_one_model :
  ~ Spec.clean_failure initial (loadModels Scenario.gender_model_fails initial).
Proof.
  intros H.
  destruct (H (Error "Failed to compile fragment shader.") eq_refl) as (_ & _ & _ & H4 & _).
  apply (H4 0%nat); vm_compute; auto.
Qed.

(** C5, as amended.  After a call of [loadModels] that succeeded, a later
    call returns at the guard and leaves the state as it is, with nothing
    for an observer to see; after a call that failed, a later call starts a
    new load: the first thing an observer sees is [isLoading] true, [error]
    cleared and [progress] back at 0. *)
Theorem later_load_after_terminal env0 env w0 :
  isInitialized (modelManager w0) = false ->
  let r0 := loadModels env0 w0 in
  match caught r0 with
  | None =>
      isLoaded (getLoadingState (final r0)) = true /\
      loadModels env (final r0) = {| final := final r0; samples := []; caught := None |}
  | Some e =>
      error (getLoadingState (final r0)) = Some (message_or "Failed to load models" e) /\
      exists rest,
        samples (loadModels env (final r0)) = Loading (isLoaded (state_of w0)) 0 :: rest
  end.
Proof.
  intros Hi r0. subst r0.
  destruct (load_outcomes env0 w0 Hi)
    as (_ & [(-> & _ & I & Hf)|(e & p & -> & (I & _ & _) & Hf & _)]).
  - rewrite Hf. split; [reflexivity|].
    set (w1 := final (loadModels env0 w0)) in *.
    unfold loadModels, begin. rewrite I. reflexivity.
  - rewrite Hf. split; [reflexivity|].
    assert (L : isLoaded (state_of (final (loadModels env0 w0))) = isLoaded (state_of w0)).
    { rewrite getLoadingState_eta in Hf. inversion Hf. reflexivity. }
    destruct (load_outcomes env _ I)
      as (_ & [(_ & Hs & _)|(e' & p' & _ & _ & _ & [(Hs & _)|(Hs & _)])]);
      rewrite Hs, L; eauto.
Qed.

Lemma load_after_failed_load_restarts :
  exists rest,
    samples (loadModels Scenario.works Scenario.failed_world) = Loading false 0 :: rest.
Proof.
  exact (proj2 (later_load_after_terminal Scenario.age_model_fails Scenario.works
                  initial eq_refl)).
Defined.

(** C5, as stated, fails: after a failed load, whose state has [error] set
    and progress 20, a new call of [loadModels] shows [error] cleared and
    progress 0. *)
Lemma failed_state_is_not_frozen :
  ~ Spec.frozen_when_terminal Scenario.works Scenario.failed_world.
Proof.
  intros H.
  assert (T : Spec.terminal (getLoadingState Scenario.failed_world))
    by (right; vm_compute; discriminate).
  specialize (H T). vm_compute in H.
  inversion H as [|s rest H1 _]. discriminate H1.
Qed.

(** What the guard of [loadModels] lets through: a call made while
    [isInitialized] is false, also while another call is still loading, sets
    [isLoading], clears [error], puts [progress] back to 0, calls
    [tf.ready()] again and waits for it. *)
Lemma load_start_restarts w :
  isInitialized (modelManager w) = false ->
  exists w',
    load_start w = (w', Suspended AwaitReady) /\
    getLoadingState w' = Loading (isLoaded (state_of w)) 0 /\
    Tf.calls (engine w') = Tf.calls (engine w) ++ [Tf.ready].
Proof.
  intros Hi. destruct (begin_spec w Hi) as (w0 & Hb & _ & Hs & _ & Hcalls).
  exists w0. unfold load_start. rewrite Hb. auto.
Qed.

Lemma load_start_while_warming_up_restarts :
  exists w',
    load_start Scenario.warming_world = (w', Suspended AwaitReady) /\
    getLoadingState w' = Loading false 0 /\
    Tf.calls (engine w') = Tf.calls (engine Scenario.warming_world) ++ [Tf.ready].
Proof.
  exact (load_start_restarts Scenario.warming_world eq_refl).
Defined.

(** C6.  The guard of [loadModels], [if (this.isInitialized) return], misses
    the load in progress: a second call made while the first one waits for
    [tf.ready()] is not a no-op, it is suspended at its own [tf.ready()], to
    load again; one made while the first one is warming the models up, at
    progress 90, also puts [progress] back to 0. *)
Theorem second_call_while_loading_is_not_ignored :
  ~ Spec.idempotent_start Scenario.loading_world /\
  ~ Spec.idempotent_start Scenario.warming_world /\
  progress (getLoadingState Scenario.warming_world) = 90 /\
  progress (getLoadingState (fst (load_start Scenario.warming_world))) = 0.
Proof.
  split; [|split; [|split; reflexivity]];
    intros H; specialize (H eq_refl);
    apply (f_equal snd) in H; vm_compute in H; discriminate.
Qed.

(** Two calls in the same turn construct the two models twice; the manager
    keeps the second pair, and the first pair stays allocated. *)
Example two_calls_construct_four_models :
  Tf.liveModels (engine Scenario.two_calls) = [0; 1; 2; 3]%nat /\
  ageModel (modelManager Scenario.two_calls) = Some 2%nat /\
  genderModel (modelManager Scenario.two_calls) = Some 3%nat /\
  getLoadingState Scenario.two_calls =
    {| isLoading := false; isLoaded := true; error := None; progress := 100 |}.
Proof. vm_compute. auto. Qed.

End LoaderClaims.

(** ** The claims on the prediction *)

Section PredictionClaims.

Local Open Scope float_scope.

Lemma predict_reads_back env imageData w r w' :
  predict env imageData w = (Return r, w') ->
  exists ageValue genderProbs,
    read_back env (ageModel (modelManager w)) imageData w = Some ageValue /\
    read_back env (genderModel (modelManager w)) imageData w = Some genderProbs /\
    r = prediction_of env ageValue genderProbs.
Proof.
  intros H. apply predict_Return in H.
  destruct H as (a & g & input & w1 & ageValue & genderProbs & Ha & Hg & Hp & HA & HG & ->).
  exists ageValue, genderProbs. unfold read_back. rewrite Ha, Hg, Hp, HA, HG. auto.
Qed.

(** C7, as amended.  For every prediction that succeeds on a raw scalar
    that is a number, the age returned is [raw * 100 + 25] clamped to
    [0, 100] and rounded to the nearest integer, and it is an integer from 0
    to 100. *)
Theorem predicted_age_is_clamped_and_rounded env imageData w r w' :
  predict env imageData w = (Return r, w') ->
  exists raw,
    raw_age env imageData w = Some raw /\
    (isNaN raw = false ->
     exists clamp,
       Spec.clamped 0 100 (raw * 100 + 25) clamp /\
       Spec.nearest_integer clamp (age r) /\
       Spec.integer_in 0 100 (age r)).
Proof.
  intros H. apply predict_reads_back in H.
  destruct H as (ageValue & genderProbs & HA & _ & ->).
  exists (index ageValue 0). unfold raw_age. rewrite HA.
  split; [reflexivity|].
  intros Hraw. cbn [age prediction_of].
  pose proof (affine_not_NaN _ Hraw) as Hx.
  exists (Math_max 0 (Math_min 100 (index ageValue 0 * 100 + 25))).
  split; [apply clamp_clamped, Hx|apply round_clamp_nearest, Hx].
Qed.

Lemma first_predicted_age_is_an_integer :
  exists clamp,
    Spec.clamped 0 100 (0.1 * 100 + 25) clamp /\
    Spec.nearest_integer clamp (age (prediction_of Scenario.works [0.1] [0.4; 0.6])) /\
    Spec.integer_in 0 100 (age (prediction_of Scenario.works [0.1] [0.4; 0.6])).
Proof.
  assert (H : predict Scenario.works Scenario.dot Scenario.ready_world
              = (Return (prediction_of Scenario.works [0.1] [0.4; 0.6]),
                 snd (predict Scenario.works Scenario.dot Scenario.ready_world)))
    by (vm_compute; reflexivity).
  destruct (predicted_age_is_clamped_and_rounded _ _ _ _ _ H) as (raw & Hraw & Hint).
  vm_compute in Hraw. injection Hraw as <-. apply Hint. reflexivity.
Defined.

(** C7, as stated, fails: when the forward pass of the age model computes
    NaN, the prediction succeeds and the age returned is NaN, which is not
    an integer from 0 to 100. *)
Lemma age_of_a_NaN_output_is_not_an_integer :
  exists r w',
    predict Scenario.not_a_number Scenario.dot Scenario.ready_world = (Return r, w') /\
    raw_age Scenario.not_a_number Scenario.dot Scenario.ready_world = Some nan /\
    ~ Spec.integer_in 0 100 (age r).
Proof.
  eexists. eexists. split; [vm_compute; reflexivity|].
  split; [vm_compute; reflexivity|].
  intros (n & Hn & E). cbn [age] in E.
  pose proof (small_integer_not_NaN n Hn) as N. rewrite <- E in N. discriminate N.
Qed.

(** C8.  For every prediction that succeeds on a probability vector
    [[pMale, pFemale]], the label returned has the largest probability of
    the two, and [genderConfidence] is [Math.max(pMale, pFemale)], which
    equals the probability of the label returned and is no smaller than
    either probability. *)
Theorem predicted_gender_is_argmax env imageData w r w' :
  predict env imageData w = (Return r, w') ->
  exists pMale pFemale,
    gender_probabilities env imageData w = Some (pMale, pFemale) /\
    genderConfidence r = Math_max pMale pFemale /\
    (isNaN pMale = false -> isNaN pFemale = false ->
     (forall l, (Spec.probability l pMale pFemale
                 <=? Spec.probability (gender r) pMale pFemale) = true) /\
     (genderConfidence r =? Spec.probability (gender r) pMale pFemale) = true /\
     (pMale <=? genderConfidence r) = true /\
     (pFemale <=? genderConfidence r) = true).
Proof.
  intros H. apply predict_reads_back in H.
  destruct H as (ageValue & genderProbs & _ & HG & ->).
  exists (index genderProbs 0), (index genderProbs 1).
  unfold gender_probabilities. rewrite HG.
  split; [reflexivity|]. split; [reflexivity|].
  intros Hm Hf. cbn [gender genderConfidence prediction_of].
  apply label_is_argmax; assumption.
Qed.

Lemma first_predicted_gender_is_female :
  gender (prediction_of Scenario.works [0.1] [0.4; 0.6]) = female /\
  genderConfidence (prediction_of Scenario.works [0.1] [0.4; 0.6]) = 0.6.
Proof.
  assert (H : predict Scenario.works Scenario.dot Scenario.ready_world
              = (Return (prediction_of Scenario.works [0.1] [0.4; 0.6]),
                 snd (predict Scenario.works Scenario.dot Scenario.ready_world)))
    by (vm_compute; reflexivity).
  destruct (predicted_gender_is_argmax _ _ _ _ _ H) as (pMale & pFemale & Hp & Hc & _).
  vm_compute in Hp. injection Hp as <- <-.
  split; [reflexivity|exact Hc].
Defined.

(** C10.  For every prediction that succeeds on a probability vector whose
    two entries are equal, the label returned is [female] and
    [genderConfidence] equals the shared probability. *)
Theorem predicted_gender_on_a_tie_is_female env imageData w r w' :
  predict env imageData w = (Return r, w') ->
  exists pMale pFemale,
    gender_probabilities env imageData w = Some (pMale, pFemale) /\
    ((pMale =? pFemale) = true ->
     gender r = female /\
     (genderConfidence r =? pMale) = true /\
     (genderConfidence r =? pFemale) = true).
Proof.
  intros H. apply predict_reads_back in H.
  destruct H as (ageValue & genderProbs & _ & HG & ->).
  exists (index genderProbs 0), (index genderProbs 1).
  unfold gender_probabilities. rewrite HG.
  split; [reflexivity|].
  intros Htie. cbn [gender genderConfidence prediction_of]. unfold gt.
  destruct (eqb_not_NaN _ _ Htie) as [Hm Hf].
  pose proof (eqb_refl _ Hm) as Em. pose proof (eqb_refl _ Hf) as Ef.
  destruct (trichotomy _ _ Hm Hf) as [T|[T|T]];
    destruct T as (T1 & T2 & T3 & T4 & _); try congruence.
  rewrite T2.
  destruct (Math_max_cases _ _ Hm Hf) as [[-> _]|[-> _]]; auto.
Qed.

Lemma tie_is_predicted_female :
  gender (prediction_of Scenario.tie [0.1] [0.5; 0.5]) = female /\
  (genderConfidence (prediction_of Scenario.tie [0.1] [0.5; 0.5]) =? 0.5) = true.
Proof.
  assert (H : predict Scenario.tie Scenario.dot Scenario.ready_world
              = (Return (prediction_of Scenario.tie [0.1] [0.5; 0.5]),
                 snd (predict Scenario.tie Scenario.dot Scenario.ready_world)))
    by (vm_compute; reflexivity).
  destruct (predicted_gender_on_a_tie_is_female _ _ _ _ _ H) as (pMale & pFemale & Hp & Ht).
  vm_compute in Hp. injection Hp as <- <-.
  destruct (Ht eq_refl) as (Hg & Hc & _). split; assumption.
Defined.

End PredictionClaims.

(** ** The claims on the guard and on the buffers of a prediction *)

Section GuardAndBuffers.

(** C9.  While the registry is not ready, in particular after a load that
    failed, [predict] throws the error of models that are not loaded and
    leaves the state of the program as it is: the library is not called, no
    tensor is made, no forward pass is run. *)
Theorem predict_rejects_when_not_ready env imageData w :
  Spec.isReady w = false \/
  (exists env0 w0 e,
     isInitialized (modelManager w0) = false /\
     caught (loadModels env0 w0) = Some e /\
     w = final (loadModels env0 w0)) ->
  predict env imageData w = (Throw NotLoaded, w).
Proof.
  intros [H|(env0 & w0 & e & Hi & Hc & ->)]; apply predict_guard; [exact H|].
  destruct (load_outcomes env0 w0 Hi)
    as (_ & [(Hc' & _)|(e' & p & _ & (I & _ & _) & _)]); [congruence|].
  unfold Spec.isReady. rewrite I. reflexivity.
Qed.

Lemma predict_before_loading_is_rejected :
  predict Scenario.works Scenario.dot initial = (Throw NotLoaded, initial).
Proof.
  apply predict_rejects_when_not_ready. left. reflexivity.
Defined.

Lemma nextTensor_release_all ts : forall e,
  Tf.nextTensor (fold_left (fun e t => Tf.release t e) ts e) = Tf.nextTensor e.
Proof.
  induction ts as [|t ts IH]; intros e; cbn [fold_left]; [reflexivity|].
  rewrite IH. reflexivity.
Qed.

Lemma nextTensor_endScope s k e : Tf.nextTensor (Tf.endScope s k e) = Tf.nextTensor e.
Proof. unfold Tf.endScope. apply nextTensor_release_all. Qed.

(** The preprocessed image is made before the end of the scope. *)
Lemma preprocessImage_id env imageData w input w1 :
  preprocessImage env imageData w = (Return input, w1) ->
  (Tf.id input < Tf.nextTensor (engine w1))%nat.
Proof.
  unfold preprocessImage, tidy.
  match goal with |- context [let (r, w') := ?body w in _] =>
    destruct (body w) as [r w'] eqn:Hbody end.
  intros H. inversion H. subst r w1. clear H. cbn [engine].
  rewrite nextTensor_endScope.
  revert Hbody.
  cbv [bind on_engine external computed ret throw makeTensor Tf.makeTensor Tf.log
       engine modelManager Tf.nextTensor Tf.live Tf.released Tf.nextModel Tf.liveModels
       Tf.releasedModels Tf.calls Tf.id Tf.shape Tf.values].
  destruct (tf_fromPixels env imageData); [discriminate|].
  match goal with |- context [tf_resizeBilinear env ?t] =>
    destruct (tf_resizeBilinear env t); [|discriminate] end.
  intros H. inversion H. cbn. lia.
Qed.

Lemma fresh_tensor_is_live lv n : existsb (Nat.eqb n) (lv ++ [n]) = true.
Proof.
  rewrite existsb_app. cbn. rewrite Nat.eqb_refl. apply orb_true_iff. right. reflexivity.
Qed.

(** Whenever the forward pass of the gender model throws after the output
    of the age model was made and read, [predict] rejects and the output
    tensor of the age model is still allocated. *)
Lemma failed_gender_pass_leaks_age_output env imageData w a g input w1 ageValue e :
  isInitialized (modelManager w) = true ->
  ageModel (modelManager w) = Some a ->
  genderModel (modelManager w) = Some g ->
  preprocessImage env imageData w = (Return input, w1) ->
  let agePrediction :=
    {| Tf.id := Tf.nextTensor (engine w1);
       Tf.shape := [1; Z.of_nat (List.length ageValue)];
       Tf.values := ageValue |} in
  model_predict env a input = Return ageValue ->
  tensor_data env agePrediction = None ->
  model_predict env g input = Throw e ->
  exists w',
    predict env imageData w
    = (Throw (Error ("Prediction failed: " ++ message_or "Unknown error" e)), w') /\
    Tf.isDisposed (Tf.id agePrediction) (engine w') = false.
Proof.
  intros Hi Ha Hg Hpre agePrediction HA HD HG.
  pose proof (preprocessImage_id _ _ _ _ _ Hpre) as Hid.
  unfold predict. rewrite Hi, Ha, Hg. cbn [negb is_null orb].
  unfold bind at 1. rewrite Hpre.
  destruct w1 as [m1 [nt lv rl nm lm rm cl]]. cbn [engine Tf.nextTensor] in *.
  destruct input as [i sh vs]. cbn [Tf.id] in *.
  subst agePrediction.
  cbv [try_catch bind forward on_engine computed ret throw makeTensor Tf.makeTensor Tf.log
       data_of external dispose_tensor Tf.disposeTensor Tf.isDisposed Tf.release
       engine modelManager Tf.nextTensor Tf.live Tf.released Tf.nextModel Tf.liveModels
       Tf.releasedModels Tf.calls Tf.id Tf.shape Tf.values].
  rewrite HA. rewrite fresh_tensor_is_live. cbn [negb].
  cbv [Tf.id Tf.shape Tf.values] in HD. rewrite HD, HG.
  eexists. split; [reflexivity|].
  destruct (negb (existsb (Nat.eqb i) (lv ++ [nt]))).
  - rewrite fresh_tensor_is_live. reflexivity.
  - rewrite filter_app, existsb_app. cbn [filter].
    replace (i =? nt)%nat with false by (symmetry; apply Nat.eqb_neq; lia).
    cbn. rewrite Nat.eqb_refl, orb_true_r. reflexivity.
Qed.

(** C1 fails on the code.  When the forward pass of the gender model
    throws, [predict] rejects with the wrapped error after disposing the
    preprocessed image only: the output tensor of the age model, tensor 8,
    is still allocated and was never released. *)
Theorem failed_prediction_leaks_the_age_output :
  let before := engine Scenario.ready_world in
  let run := predict Scenario.gender_pass_fails Scenario.dot Scenario.ready_world in
  fst run = Throw (Error "Prediction failed: WebGL context lost.") /\
  leaked before (engine (snd run)) = [8%nat] /\
  Tf.releases 8 (engine (snd run)) = 0%nat /\
  Tf.releases 7 (engine (snd run)) = 1%nat.
Proof. vm_compute. auto. Qed.

(** The same when reading back the output of the age model fails. *)
Example failed_read_leaks_the_age_output :
  let before := engine Scenario.ready_world in
  let run := predict Scenario.age_read_fails Scenario.dot Scenario.ready_world in
  fst run = Throw (Error "Prediction failed: WebGL context lost.") /\
  leaked before (engine (snd run)) = [8%nat].
Proof. vm_compute. auto. Qed.

(** A prediction that succeeds releases every tensor it made, once. *)
Example successful_prediction_releases_every_tensor :
  let before := engine Scenario.ready_world in
  let run := predict Scenario.works Scenario.dot Scenario.ready_world in
  leaked before (engine (snd run)) = [] /\
  map (fun t => Tf.releases t (engine (snd run))) (Tf.created before (engine (snd run)))
  = [1; 1; 1; 1; 1; 1; 1]%nat.
Proof. vm_compute. auto. Qed.

End GuardAndBuffers.

(** ** The claim on the normalisation *)

Section Normalisation.

Lemma RGBA_eta p :
  {| red := channel 0 p; green := channel 1 p; blue := channel 2 p; alpha := channel 3 p |}
  = p.
Proof. destruct p. reflexivity. Qed.

(** A pixel of the image data read from a canvas of 224 by 224 pixels is
    the pixel of the bitmap. *)
Lemma getImageData_pixel c i j :
  canvas_width c = 224 -> canvas_height c = 224 ->
  0 <= i < 224 -> 0 <= j < 224 ->
  pixel (getImageData 0 0 224 224 c) i j = bitmap c i j.
Proof.
  intros Hw Hh Hi Hj. unfold pixel, getImageData. cbn [width height data].
  rewrite Hw, Hh.
  assert (Q : forall k, 0 <= k < 4 ->
                (4 * (j * 224 + i) + k) / 4 = j * 224 + i /\
                (4 * (j * 224 + i) + k) mod 4 = k).
  { intros k Hk. split; Z.to_euclidean_division_equations; lia. }
  assert (Di : (j * 224 + i) mod 224 = i) by (Z.to_euclidean_division_equations; lia).
  assert (Dj : (j * 224 + i) / 224 = j) by (Z.to_euclidean_division_equations; lia).
  destruct (Q 0 ltac:(lia)) as [Q0 R0]. rewrite Z.add_0_r in Q0, R0.
  destruct (Q 1 ltac:(lia)) as [Q1 R1].
  destruct (Q 2 ltac:(lia)) as [Q2 R2].
  destruct (Q 3 ltac:(lia)) as [Q3 R3].
  rewrite Q0, Q1, Q2, Q3, R0, R1, R2, R3, Di, Dj. cbn [Z.add].
  replace ((0 <=? i) && (i <? 224) && (0 <=? j) && (j <? 224)) with true
    by (symmetry; rewrite !andb_true_iff, !Z.leb_le, !Z.ltb_lt; lia).
  apply RGBA_eta.
Qed.

(** C3, as amended.  For every image, the normalisation computes the scale
    [s = Math.min(224 / w0, 224 / h0)], resets and clears a canvas of 224 by
    224 pixels, and draws the image once, into the rectangle of size
    [w0 * s] by [h0 * s] at [((224 - w0 * s) / 2, (224 - h0 * s) / 2)]: the
    size is not rounded and the same offset stands for the padding on both
    sides.  Every pixel of the result that the rectangle does not meet is
    transparent black: all four channels are 0, alpha included. *)
Theorem normalization_draws_unrounded_rectangle raster img this :
  let w0 := Number_of_Z (img_width img) in
  let h0 := Number_of_Z (img_height img) in
  let s := Math_min (224 / w0)%float (224 / h0)%float in
  let drawn_into :=
    {| dx := ((224 - w0 * s) / 2)%float; dy := ((224 - h0 * s) / 2)%float;
       dw := (w0 * s)%float; dh := (h0 * s)%float |} in
  let (r, p) := processImageElement raster img this in
  width (imageData r) = 224 /\
  height (imageData r) = 224 /\
  drawn (canvas p) = [drawn_into] /\
  forall i j, 0 <= i < 224 -> 0 <= j < 224 ->
    covers drawn_into i j = false ->
    pixel (imageData r) i j = transparent_black.
Proof.
  cbv zeta. unfold processImageElement. cbn [imageData canvas].
  split; [reflexivity|]. split; [reflexivity|]. split; [reflexivity|].
  intros i j Hi Hj Hc.
  rewrite getImageData_pixel by (try reflexivity; assumption).
  cbn [bitmap drawImage clearRect].
  change (destination (Number_of_Z (img_width img)) (Number_of_Z (img_height img)))
    with {| dx := ((224 - Number_of_Z (img_width img)
                          * Math_min (224 / Number_of_Z (img_width img))
                                     (224 / Number_of_Z (img_height img))) / 2)%float;
            dy := ((224 - Number_of_Z (img_height img)
                          * Math_min (224 / Number_of_Z (img_width img))
                                     (224 / Number_of_Z (img_height img))) / 2)%float;
            dw := (Number_of_Z (img_width img)
                   * Math_min (224 / Number_of_Z (img_width img))
                              (224 / Number_of_Z (img_height img)))%float;
            dh := (Number_of_Z (img_height img)
                   * Math_min (224 / Number_of_Z (img_width img))
                              (224 / Number_of_Z (img_height img)))%float |}.
  rewrite Hc.
  replace ((0 <=? i) && (i <? 0 + targetSize) && (0 <=? j) && (j <? 0 + targetSize))
    with true
    by (symmetry; unfold targetSize; rewrite !andb_true_iff, !Z.leb_le, !Z.ltb_lt; lia).
  reflexivity.
Qed.

(** C3, as stated, fails: for an image of 300 by 200 pixels the height of
    the rectangle drawn is [149.33333333333334], not the rounded 149. *)
Lemma normalization_does_not_round :
  ~ Spec.normalized Scenario.flat (Scenario.photo 300 200).
Proof.
  unfold Spec.normalized. cbn [processImageElement]. intros (_ & _ & H & _).
  apply (f_equal (fun l => Prim2SF (dh (hd (Spec.region 0 0) l)))) in H.
  vm_compute in H. discriminate.
Qed.

(** The end-to-end scenario of the specification, an image of 400 by 200
    pixels: the rectangle drawn is not 224 by 112 at (0, 56). *)
Example rectangle_of_400_by_200 :
  destination (Number_of_Z 400) (Number_of_Z 200) =
  {| dx := (-1.4210854715202004e-14)%float; dy := 55.999999999999993%float;
     dw := 224.00000000000003%float; dh := 112.00000000000001%float |}.
Proof. vm_compute. reflexivity. Qed.

(** The untouched corner of the image data of a 300 by 200 image is
    transparent. *)
Example corner_is_transparent :
  alpha (pixel (imageData (fst (processImageElement Scenario.flat
                                  (Scenario.photo 300 200) constructor))) 0 0) = 0.
Proof. vm_compute. reflexivity. Qed.

End Normalisation.

(** * Resources, files, the server route and the page *)

(** ** Tensors of the engine *)


Section Engine.

Lemma isDisposed_isLive t e : Tf.isDisposed t e = negb (isLive t e).
Proof. reflexivity. Qed.

Lemma existsb_filter t (p : nat -> bool) l :
  existsb (Nat.eqb t) (filter p l) = existsb (Nat.eqb t) l && p t.
Proof.
  induction l as [|u l IH]; cbn; [reflexivity|].
  destruct (p u) eqn:Pu; cbn; rewrite IH.
  - destruct (Nat.eqb_spec t u) as [->|]; cbn; [rewrite Pu; reflexivity|reflexivity].
  - destruct (Nat.eqb_spec t u) as [->|]; cbn; [rewrite Pu, andb_false_r; reflexivity|reflexivity].
Qed.

Lemma isLive_log t c e : isLive t (Tf.log c e) = isLive t e.
Proof. reflexivity. Qed.

Lemma isLive_makeTensor t sh vs e :
  isLive t (snd (Tf.makeTensor sh vs e)) = isLive t e || Nat.eqb t (Tf.nextTensor e).
Proof.
  unfold isLive. cbn. rewrite existsb_app. cbn. rewrite orb_false_r. reflexivity.
Qed.

Lemma isLive_release t d e :
  isLive t (Tf.release d e) = isLive t e && negb (Nat.eqb d t).
Proof. unfold isLive. cbn. apply existsb_filter. Qed.

Lemma isLive_disposeTensor t d e :
  isLive t (Tf.disposeTensor d e) = isLive t e && negb (Nat.eqb (Tf.id d) t).
Proof.
  unfold Tf.disposeTensor. rewrite isDisposed_isLive, isLive_log.
  destruct (isLive (Tf.id d) e) eqn:L; cbn [negb].
  - rewrite isLive_release, isLive_log. reflexivity.
  - rewrite isLive_log. destruct (Nat.eqb_spec (Tf.id d) t) as [<-|]; cbn.
    + rewrite L. reflexivity.
    + rewrite andb_true_r. reflexivity.
Qed.

Lemma isLive_release_all ts : forall t e,
  isLive t (fold_left (fun e d => Tf.release d e) ts e)
  = isLive t e && negb (existsb (Nat.eqb t) ts).
Proof.
  induction ts as [|d ts IH]; intros t e; cbn [fold_left existsb].
  - cbn. rewrite andb_true_r. reflexivity.
  - rewrite IH, isLive_release, negb_orb, (Nat.eqb_sym d t).
    rewrite <- andb_assoc. reflexivity.
Qed.

(** At the end of a scope, the tensors made in it are released, except the
    one kept; the others are as they were. *)
Lemma isLive_endScope t s k e :
  isLive t (Tf.endScope s k e)
  = isLive t e
    && negb ((s <=? t)%nat && negb (match k with Some k => Nat.eqb k t | None => false end)).
Proof.
  unfold Tf.endScope. rewrite isLive_release_all.
  fold (isLive t e). unfold isLive at 2. rewrite existsb_filter. fold (isLive t e).
  destruct (isLive t e); cbn; reflexivity.
Qed.

Lemma nextTensor_disposeTensor d e : Tf.nextTensor (Tf.disposeTensor d e) = Tf.nextTensor e.
Proof. unfold Tf.disposeTensor. destruct (Tf.isDisposed _ _); reflexivity. Qed.

End Engine.

(** ** Preprocessing and prediction *)

Ltac run_library :=
  cbv [bind on_engine external computed ret throw makeTensor Tf.makeTensor Tf.log];
  cbn [engine modelManager Tf.nextTensor Tf.live Tf.released Tf.nextModel Tf.liveModels
       Tf.releasedModels Tf.calls Tf.id Tf.shape Tf.values fst snd].

Ltac compare_naturals :=
  repeat match goal with
  | |- context [Nat.eqb ?a ?b] => destruct (Nat.eqb_spec a b)
  | |- context [Nat.leb ?a ?b] => destruct (Nat.leb_spec a b)
  | |- context [Nat.ltb ?a ?b] => destruct (Nat.ltb_spec a b)
  end; cbn; try reflexivity; try lia.

(** What [preprocessImage] does to the tensors, [n] being the number of
    tensors made before the call. *)
Lemma preprocessImage_scope env imageData w :
  let n := Tf.nextTensor (engine w) in
  let (r, w') := preprocessImage env imageData w in
  modelManager w' = modelManager w /\
  match r with
  | Return input =>
      Tf.id input = (n + 4)%nat /\
      Tf.shape input = [1; 224; 224; 3] /\
      (exists resized,
         tf_resizeBilinear env (pixels_tensor n imageData) = Return resized /\
         Tf.values input = map (fun v => (v / 255)%float) resized) /\
      Tf.nextTensor (engine w') = (n + 5)%nat /\
      forall t, isLive t (engine w')
                = isLive t (engine w) && (t <? n)%nat || Nat.eqb t (n + 4)
  | Throw e =>
      forall t, isLive t (engine w') = isLive t (engine w) && (t <? n)%nat
  end.
Proof.
  destruct w as [m [nt lv rl nm lm rm cl]].
  unfold preprocessImage, tidy, pixels_tensor. cbn [engine Tf.nextTensor].
  run_library.
  destruct (tf_fromPixels env imageData) as [e|]; run_library.
  - split; [reflexivity|]. intros t. rewrite isLive_endScope. unfold isLive. cbn [Tf.live].
    destruct (existsb (Nat.eqb t) lv); cbn [andb]; compare_naturals.
  - match goal with |- context [tf_resizeBilinear env ?t] =>
      destruct (tf_resizeBilinear env t) as [resized|e] eqn:R end; run_library.
    + split; [reflexivity|]. split; [f_equal; lia|]. split; [reflexivity|].
      split; [eauto|]. rewrite nextTensor_endScope. cbn [Tf.nextTensor].
      split; [lia|]. intros t. rewrite isLive_endScope. unfold isLive. cbn [Tf.live].
      rewrite !existsb_app. cbn [existsb]. rewrite !orb_false_r.
      destruct (existsb (Nat.eqb t) lv); cbn [andb orb]; compare_naturals.
    + split; [reflexivity|]. intros t. rewrite isLive_endScope. unfold isLive. cbn [Tf.live].
      rewrite !existsb_app. cbn [existsb]. rewrite !orb_false_r.
      destruct (existsb (Nat.eqb t) lv); cbn [andb orb]; compare_naturals.
Qed.

(** X1.  Of the tensors that [preprocessImage] makes, [tf.tidy] leaves
    exactly one allocated: the result, of shape [1, 224, 224, 3]; every
    other tensor made in the scope is released, the tensors made before the
    call are as they were, and the manager is unchanged.  When a step throws,
    no tensor made in the scope stays allocated. *)
Theorem preprocessing_keeps_its_result_only env imageData w :
  let n := Tf.nextTensor (engine w) in
  let (r, w') := preprocessImage env imageData w in
  modelManager w' = modelManager w /\
  (forall t, (t < n)%nat -> isLive t (engine w') = isLive t (engine w)) /\
  match r with
  | Return input =>
      Tf.shape input = [1; 224; 224; 3] /\
      isLive (Tf.id input) (engine w') = true /\
      forall t, (n <= t)%nat -> isLive t (engine w') = Nat.eqb t (Tf.id input)
  | Throw e =>
      forall t, (n <= t)%nat -> isLive t (engine w') = false
  end.
Proof.
  cbv zeta. pose proof (preprocessImage_scope env imageData w) as P. cbv zeta in P.
  destruct (preprocessImage env imageData w) as [[input|e] w'].
  - destruct P as (Pm & Pid & Psh & _ & _ & Pl).
    split; [exact Pm|]. repeat split.
    + intros t Ht. rewrite Pl. destruct (isLive t (engine w)); cbn [andb orb]; compare_naturals.
    + exact Psh.
    + rewrite Pl, Pid, Nat.eqb_refl. apply orb_true_r.
    + intros t Ht. rewrite Pl, Pid.
      destruct (isLive t (engine w)); cbn [andb orb]; compare_naturals.
  - destruct P as (Pm & Pl). split; [exact Pm|]. split.
    + intros t Ht. rewrite Pl. destruct (isLive t (engine w)); cbn [andb]; compare_naturals.
    + intros t Ht. rewrite Pl. destruct (isLive t (engine w)); cbn [andb]; compare_naturals.
Qed.

Ltac run_predict :=
  cbv [try_catch bind forward data_of dispose_tensor on_engine external computed ret throw
       makeTensor Tf.makeTensor Tf.log];
  cbn [engine modelManager Tf.nextTensor Tf.live Tf.released Tf.nextModel Tf.liveModels
       Tf.releasedModels Tf.calls Tf.id Tf.shape Tf.values fst snd].

Ltac case_predict :=
  repeat match goal with
  | |- context [match model_predict ?e ?h ?t with _ => _ end] =>
      destruct (model_predict e h t); run_predict; try discriminate
  | |- context [match tensor_data ?e ?t with _ => _ end] =>
      destruct (tensor_data e t); run_predict; try discriminate
  | |- context [if Tf.isDisposed ?t ?e then _ else _] =>
      destruct (Tf.isDisposed t e); run_predict; try discriminate
  end.

(** A prediction that succeeds leaves the tensors and the manager as they
    were. *)
Lemma predict_Return_scope env imageData w r w' :
  predict env imageData w = (Return r, w') ->
  let n := Tf.nextTensor (engine w) in
  modelManager w' = modelManager w /\
  Tf.nextTensor (engine w') = (n + 7)%nat /\
  forall t, isLive t (engine w') = isLive t (engine w) && (t <? n)%nat.
Proof.
  unfold predict.
  destruct (negb (isInitialized (modelManager w)) || is_null (ageModel (modelManager w))
            || is_null (genderModel (modelManager w))); [discriminate|].
  destruct (ageModel (modelManager w)) as [a|] eqn:Ha;
    [|unfold bind, forward, try_catch; destruct (preprocessImage env imageData w) as [[?|?] ?];
      cbn; discriminate].
  destruct (genderModel (modelManager w)) as [g|] eqn:Hg.
  2:{ pose proof (preprocessImage_scope env imageData w) as P.
      unfold bind at 1. destruct (preprocessImage env imageData w) as [[input|e] w1];
        [|discriminate].
      destruct w1 as [m1 [nt1 lv1 rl1 nm1 lm1 rm1 cl1]].
      run_predict. case_predict. }
  pose proof (preprocessImage_scope env imageData w) as P.
  unfold bind at 1. destruct (preprocessImage env imageData w) as [[input|e] w1];
    [|discriminate].
  destruct P as (Pm & Pid & _ & _ & Pn & Pl).
  destruct w1 as [m1 [nt1 lv1 rl1 nm1 lm1 rm1 cl1]].
  cbn [engine modelManager Tf.nextTensor] in *.
  run_predict. case_predict.
  intros H. inversion H. subst r w'. clear H.
  cbn [engine modelManager].
  rewrite !nextTensor_disposeTensor. cbn [Tf.nextTensor].
  split; [assumption|]. split; [lia|].
  intros t. rewrite !isLive_disposeTensor. cbn [Tf.id].
  unfold isLive at 1. cbn [Tf.live]. rewrite !existsb_app. cbn [existsb].
  rewrite !orb_false_r.
  specialize (Pl t). unfold isLive in Pl at 1. cbn [Tf.live] in Pl.
  rewrite Pl, Pid, Pn.
  destruct (isLive t (engine w)); cbn [andb orb]; compare_naturals.
Qed.

(** X2.  A prediction that succeeds releases every tensor it made: no
    tensor made during the call is allocated afterwards, the tensors made
    before the call are as they were, and the manager is unchanged. *)
Theorem successful_prediction_releases_what_it_made env imageData w r w' :
  predict env imageData w = (Return r, w') ->
  let n := Tf.nextTensor (engine w) in
  modelManager w' = modelManager w /\
  (forall t, (t < n)%nat -> isLive t (engine w') = isLive t (engine w)) /\
  (forall t, (n <= t)%nat -> isLive t (engine w') = false).
Proof.
  intros H. cbv zeta.
  destruct (predict_Return_scope env imageData w r w' H) as (Pm & _ & Pl).
  split; [exact Pm|].
  split; intros t Ht; rewrite Pl; destruct (isLive t (engine w)); cbn [andb];
    compare_naturals.
Qed.

Lemma first_prediction_releases_what_it_made :
  let w := Scenario.ready_world in
  let w' := snd (predict Scenario.works Scenario.dot w) in
  modelManager w' = modelManager w /\
  (forall t, (t < Tf.nextTensor (engine w))%nat ->
             isLive t (engine w') = isLive t (engine w)) /\
  (forall t, (Tf.nextTensor (engine w) <= t)%nat -> isLive t (engine w') = false).
Proof.
  assert (H : predict Scenario.works Scenario.dot Scenario.ready_world
              = (Return (prediction_of Scenario.works [0.1%float] [0.4%float; 0.6%float]),
                 snd (predict Scenario.works Scenario.dot Scenario.ready_world)))
    by (vm_compute; reflexivity).
  exact (successful_prediction_releases_what_it_made _ _ _ _ _ H).
Defined.

(** Every way in which [predict] rejects. *)
Lemma predict_Throw_cases env imageData w v w' :
  predict env imageData w = (Throw v, w') ->
  (v = NotLoaded /\ w' = w) \/
  preprocessImage env imageData w = (Throw v, w') \/
  exists input w1 e,
    preprocessImage env imageData w = (Return input, w1) /\
    v = Error ("Prediction failed: " ++ message_or "Unknown error" e) /\
    modelManager w' = modelManager w /\
    isLive (Tf.id input) (engine w') = false.
Proof.
  unfold predict.
  destruct (negb (isInitialized (modelManager w)) || is_null (ageModel (modelManager w))
            || is_null (genderModel (modelManager w)));
    [intros H; inversion H; auto|].
  pose proof (preprocessImage_scope env imageData w) as P.
  unfold bind at 1. destruct (preprocessImage env imageData w) as [[input|e] w1];
    [|intros H; inversion H; auto].
  destruct P as (Pm & _).
  intros H. right. right.
  unfold try_catch in H.
  match type of H with (match ?body with _ => _ end) = _ =>
    destruct body as [[r|e] w2] eqn:B end; [discriminate|].
  exists input, w1, e.
  assert (M : modelManager w2 = modelManager w1).
  { revert B. destruct w1 as [m1 e1].
    destruct (ageModel (modelManager w)), (genderModel (modelManager w));
      run_predict; case_predict; intros B; inversion B; reflexivity. }
  revert H. unfold bind, dispose_tensor, on_engine, throw.
  intros H. inversion H. cbn [engine modelManager].
  rewrite isLive_disposeTensor, Nat.eqb_refl, andb_false_r.
  repeat split; congruence.
Qed.



(** [predict] never changes the manager. *)
Lemma predict_manager env imageData w :
  modelManager (snd (predict env imageData w)) = modelManager w.
Proof.
  destruct (predict env imageData w) as [[r|v] w'] eqn:E; cbn [snd].
  - apply (predict_Return_scope env imageData w r w' E).
  - destruct (predict_Throw_cases env imageData w v w' E) as [[_ ->]|[P|(i & w1 & e & _ & _ & M & _)]];
      [reflexivity| |exact M].
    pose proof (preprocessImage_scope env imageData w) as S.
    rewrite P in S. apply S.
Qed.

(** ** Loading and disposing *)

Ltac run_load :=
  cbv [loadModels begin after_ready after_age_warm_up after_gender_warm_up in_try bind
       external computed ret throw update on_engine createAgeModel createGenderModel
       createModel zeros makeTensor forward this exec load_catch load_finally dispose_tensor
       Tf.makeTensor Tf.makeModel Tf.log
       set_progress set_error set_isLoading set_isLoaded set_isInitialized
       set_ageModel set_genderModel set_loadingState];
  cbn [modelManager engine loadingState isLoading isLoaded error progress
       ageModel genderModel isInitialized fst snd final caught samples
       Tf.nextTensor Tf.live Tf.released Tf.nextModel Tf.liveModels Tf.releasedModels
       Tf.calls Tf.id Tf.shape Tf.values].

Ltac case_load :=
  repeat match goal with
  | |- context [match tf_ready ?e with _ => _ end] => destruct (tf_ready e); run_load
  | |- context [match createAgeModel_throws ?e with _ => _ end] =>
      destruct (createAgeModel_throws e); run_load
  | |- context [match createGenderModel_throws ?e with _ => _ end] =>
      destruct (createGenderModel_throws e); run_load
  | |- context [match tf_zeros ?e with _ => _ end] => destruct (tf_zeros e); run_load
  | |- context [match model_predict ?e ?h ?t with _ => _ end] =>
      destruct (model_predict e h t); run_load
  end.

Lemma liveModels_disposeTensor d e :
  Tf.liveModels (Tf.disposeTensor d e) = Tf.liveModels e.
Proof. unfold Tf.disposeTensor. destruct (Tf.isDisposed _ _); reflexivity. Qed.

Lemma nextModel_disposeTensor d e : Tf.nextModel (Tf.disposeTensor d e) = Tf.nextModel e.
Proof. unfold Tf.disposeTensor. destruct (Tf.isDisposed _ _); reflexivity. Qed.

Lemma releasedModels_disposeTensor d e :
  Tf.releasedModels (Tf.disposeTensor d e) = Tf.releasedModels e.
Proof. unfold Tf.disposeTensor. destruct (Tf.isDisposed _ _); reflexivity. Qed.

(** X4.  A load that passes the guard and catches no exception constructs
    exactly two models, the age model first, and disposes none: the manager
    holds the two new handles, the allocated models are those of before and
    these two, and [predict] passes its guard afterwards. *)
Theorem successful_load_makes_the_registry_ready env w :
  isInitialized (modelManager w) = false ->
  caught (loadModels env w) = None ->
  let w' := final (loadModels env w) in
  let n := Tf.nextModel (engine w) in
  Tf.nextModel (engine w') = (n + 2)%nat /\
  ageModel (modelManager w') = Some n /\
  genderModel (modelManager w') = Some (S n) /\
  (forall h, In h (Tf.liveModels (engine w')) <->
             In h (Tf.liveModels (engine w)) \/ h = n \/ h = S n) /\
  Tf.releasedModels (engine w') = Tf.releasedModels (engine w) /\
  Spec.isReady w' = true.
Proof.
  destruct w as [[am gm init ls] [nt lv rl nm lm rm cl]]. cbn [modelManager isInitialized].
  intros ->. cbv zeta. unfold Spec.isReady. run_load. case_load; try discriminate.
  intros _. cbn [is_null negb andb].
  rewrite liveModels_disposeTensor, nextModel_disposeTensor, releasedModels_disposeTensor.
  cbn [Tf.liveModels Tf.nextModel Tf.releasedModels].
  split; [lia|]. repeat split; try reflexivity.
  - rewrite !in_app_iff. cbn [In]. intuition.
  - rewrite !in_app_iff. cbn [In]. intuition.
Qed.

Lemma first_load_makes_the_registry_ready :
  let w' := final (loadModels Scenario.works initial) in
  Tf.nextModel (engine w') = 2%nat /\
  ageModel (modelManager w') = Some 0%nat /\
  genderModel (modelManager w') = Some 1%nat /\
  (forall h, In h (Tf.liveModels (engine w')) <->
             In h (Tf.liveModels (engine initial)) \/ h = 0%nat \/ h = 1%nat) /\
  Tf.releasedModels (engine w') = Tf.releasedModels (engine initial) /\
  Spec.isReady w' = true.
Proof.
  exact (successful_load_makes_the_registry_ready Scenario.works initial eq_refl eq_refl).
Defined.

(** X5.  A load that succeeds makes three tensors: the dummy input, which
    it disposes, and the outputs of the two warm-up passes, which it never
    disposes: both are still allocated when [loadModels] returns.  The
    tensors made before the call are as they were. *)
Theorem successful_load_keeps_the_warm_up_outputs env w :
  isInitialized (modelManager w) = false ->
  caught (loadModels env w) = None ->
  let w' := final (loadModels env w) in
  let n := Tf.nextTensor (engine w) in
  Tf.nextTensor (engine w') = (n + 3)%nat /\
  isLive n (engine w') = false /\
  isLive (n + 1) (engine w') = true /\
  isLive (n + 2) (engine w') = true /\
  forall t, (t < n)%nat -> isLive t (engine w') = isLive t (engine w).
Proof.
  destruct w as [[am gm init ls] [nt lv rl nm lm rm cl]]. cbn [modelManager isInitialized].
  intros ->. cbv zeta. run_load. case_load; try discriminate.
  intros _. rewrite nextTensor_disposeTensor. cbn [Tf.nextTensor].
  split; [lia|].
  assert (L : forall t,
    isLive t (Tf.disposeTensor
      {| Tf.id := nt; Tf.shape := [1; 224; 224; 3];
         Tf.values := repeat 0%float (Z.to_nat (fold_right Z.mul 1 [1; 224; 224; 3])) |}
      {| Tf.nextTensor := S (S (S nt));
         Tf.live := ((lv ++ [nt]) ++ [S nt]) ++ [S (S nt)];
         Tf.released := rl; Tf.nextModel := S (S nm);
         Tf.liveModels := (lm ++ [nm]) ++ [S nm]; Tf.releasedModels := rm;
         Tf.calls := (((((cl ++ [Tf.ready]) ++ [Tf.sequential nm]) ++ [Tf.sequential (S nm)])
                       ++ [Tf.zeros nt]) ++ [Tf.predict nm nt]) ++ [Tf.predict (S nm) nt] |})
    = (isLive t {| Tf.nextTensor := nt; Tf.live := lv; Tf.released := rl;
                   Tf.nextModel := nm; Tf.liveModels := lm; Tf.releasedModels := rm;
                   Tf.calls := cl |}
       || Nat.eqb t (S nt) || Nat.eqb t (S (S nt))) && negb (Nat.eqb nt t)).
  { intros t. rewrite isLive_disposeTensor. cbn [Tf.id]. unfold isLive. cbn [Tf.live].
    rewrite !existsb_app. cbn [existsb]. rewrite !orb_false_r.
    destruct (existsb (Nat.eqb t) lv); cbn [orb andb]; compare_naturals. }
  match goal with |- context [Tf.disposeTensor ?d ?e] => set (E := Tf.disposeTensor d e) in * end.
  repeat split.
  - rewrite L. rewrite Nat.eqb_refl, andb_false_r. reflexivity.
  - rewrite L. replace (nt + 1)%nat with (S nt) by lia.
    rewrite Nat.eqb_refl, orb_true_r. cbn. compare_naturals.
  - rewrite L. replace (nt + 2)%nat with (S (S nt)) by lia.
    rewrite Nat.eqb_refl, orb_true_r. cbn. compare_naturals.
  - intros t Ht. rewrite L.
    replace (Nat.eqb t (S nt)) with false by (symmetry; apply Nat.eqb_neq; lia).
    replace (Nat.eqb t (S (S nt))) with false by (symmetry; apply Nat.eqb_neq; lia).
    replace (Nat.eqb nt t) with false by (symmetry; apply Nat.eqb_neq; lia).
    rewrite !orb_false_r, andb_true_r. reflexivity.
Qed.

Lemma first_load_keeps_the_warm_up_outputs :
  let w' := final (loadModels Scenario.works initial) in
  Tf.nextTensor (engine w') = 3%nat /\
  isLive 0 (engine w') = false /\
  isLive 1 (engine w') = true /\
  isLive 2 (engine w') = true /\
  forall t, (t < 0)%nat -> isLive t (engine w') = isLive t (engine initial).
Proof.
  exact (successful_load_keeps_the_warm_up_outputs Scenario.works initial eq_refl eq_refl).
Defined.

(** X6.  When a warm-up pass throws, [dummyInput.dispose()] is skipped: the
    dummy input, the first tensor that the call made, is still allocated
    when [loadModels] returns. *)
Theorem failed_warm_up_keeps_the_dummy_input env w e :
  isInitialized (modelManager w) = false ->
  tf_ready env = None ->
  createAgeModel_throws env = None ->
  createGenderModel_throws env = None ->
  tf_zeros env = None ->
  caught (loadModels env w) = Some e ->
  isLive (Tf.nextTensor (engine w)) (engine (final (loadModels env w))) = true.
Proof.
  destruct w as [[am gm init ls] [nt lv rl nm lm rm cl]]. cbn [modelManager isInitialized].
  intros -> R A G Z. run_load. rewrite R. run_load. rewrite A. run_load.
  rewrite G. run_load. rewrite Z. run_load. case_load; try discriminate.
  all: intros _; unfold isLive; cbn [Tf.live]; rewrite !existsb_app; cbn [existsb];
    rewrite Nat.eqb_refl; cbn; rewrite ?orb_true_r; reflexivity.
Qed.

Lemma failed_gender_warm_up_keeps_the_dummy_input :
  isLive 0 (engine (final (loadModels Scenario.gender_pass_fails initial))) = true.
Proof.
  exact (failed_warm_up_keeps_the_dummy_input Scenario.gender_pass_fails initial
           (Error "WebGL context lost.") eq_refl eq_refl eq_refl eq_refl eq_refl eq_refl).
Defined.


Lemma not_in_filter_out h l : ~ In h (filter (fun u => negb (Nat.eqb h u)) l).
Proof.
  intros H. apply filter_In in H. destruct H as [_ H]. rewrite Nat.eqb_refl in H. discriminate.
Qed.


(** X8.  [dispose()] is idempotent: a second call changes nothing, and
    releases no model a second time. *)
Theorem dispose_twice_is_dispose w :
  snd (dispose (snd (dispose w))) = snd (dispose w).
Proof.
  destruct w as [[am gm init ls] [nt lv rl nm lm rm cl]].
  destruct am as [a|], gm as [g|]; reflexivity.
Qed.

(** ** Image files *)

Section ImageFileFacts.

Local Open Scope float_scope.

(** [Math.min] of two numbers returns one of them, the other being no
    smaller. *)
Lemma Math_min_cases a b :
  isNaN a = false -> isNaN b = false ->
  (Math_min a b = b /\ (b <=? a) = true) \/
  (Math_min a b = a /\ (a <=? b) = true).
Proof.
  intros Ha Hb. unfold Math_min. rewrite Ha, Hb. cbn [orb].
  destruct (isNegZero b && isPosZero a) eqn:Z.
  - left. split; [reflexivity|].
    apply andb_prop in Z. destruct Z as [Zb Za].
    apply andb_prop in Zb. apply andb_prop in Za.
    pose proof (is_zero_eqb a b (proj1 Za) (proj1 Zb)) as E.
    destruct (trichotomy a b Ha Hb) as [T|[T|T]];
      destruct T as (_ & _ & T3 & _ & _ & T6); congruence.
  - destruct (trichotomy a b Ha Hb) as [T|[T|T]];
      destruct T as (_ & T2 & _ & _ & T5 & T6); rewrite T2; auto.
Qed.

(** X9.  The verdict of the page and the verdict of the server route on a
    file are the same: [!(size <= max)] and [size > max] agree on every size that
    is a number, and the lists of media types are equal. *)
Theorem client_and_server_validation_agree rt rt' f :
  isNaN (ImageFiles.size f) = false ->
  ImageFiles.isValid (ImageFiles.validateImageFile rt f)
  = ImageFiles.isValid (Route.validateImage rt' f).
Proof.
  intros Hs. unfold ImageFiles.validateImageFile, Route.validateImage,
    ImageFiles.isValidFileSize, gt.
  assert (Hm : isNaN (10 * 1024 * 1024) = false) by reflexivity.
  destruct (trichotomy (ImageFiles.size f) (10 * 1024 * 1024) Hs Hm) as [T|[T|T]];
    destruct T as (_ & T2 & _ & _ & T5 & _); rewrite T2, T5; cbn [negb];
    try reflexivity;
    destruct (includes ImageFiles.validTypes (toLowerCase (ImageFiles.type f)));
    reflexivity.
Qed.

Lemma validation_agrees_on_a_large_file :
  ImageFiles.isValid (ImageFiles.validateImageFile Cases.silent Cases.large_png)
  = ImageFiles.isValid (Route.validateImage Cases.silent Cases.large_png).
Proof.
  apply (client_and_server_validation_agree Cases.silent Cases.silent Cases.large_png).
  reflexivity.
Defined.

(** X10.  A file that [validateImageFile] accepts is never rejected for its
    format by [processImageFile]: either the browser decodes it and the
    result is an image data of 224 by 224 pixels with the original size of
    the image, or the promise rejects with ["Failed to load image"] and the
    processor is untouched. *)
Theorem validated_file_is_processed rt b f this :
  ImageFiles.isValid (ImageFiles.validateImageFile rt f) = true ->
  match ImageFiles.processImageFile b f this with
  | (Return r, _) =>
      exists img,
        ImageFiles.decode b f = Some img /\
        width (imageData r) = 224%Z /\ height (imageData r) = 224%Z /\
        originalWidth r = Number_of_Z (img_width img) /\
        originalHeight r = Number_of_Z (img_height img)
  | (Throw e, this') =>
      ImageFiles.decode b f = None /\ e = Error "Failed to load image" /\ this' = this
  end.
Proof.
  unfold ImageFiles.validateImageFile, ImageFiles.processImageFile,
    ImageFiles.isValidImageFile.
  destruct (negb (ImageFiles.isValidFileSize f 10)); [discriminate|].
  destruct (includes ImageFiles.validTypes (toLowerCase (ImageFiles.type f)));
    cbn [negb]; [|discriminate].
  intros _. destruct (ImageFiles.decode b f) as [img|]; [|auto].
  cbn. eauto 10.
Qed.

Lemma validated_png_is_processed :
  match ImageFiles.processImageFile Cases.browser Cases.png constructor with
  | (Return r, _) =>
      exists img,
        ImageFiles.decode Cases.browser Cases.png = Some img /\
        width (imageData r) = 224%Z /\ height (imageData r) = 224%Z /\
        originalWidth r = Number_of_Z (img_width img) /\
        originalHeight r = Number_of_Z (img_height img)
  | (Throw e, this') =>
      ImageFiles.decode Cases.browser Cases.png = None /\
      e = Error "Failed to load image" /\ this' = constructor
  end.
Proof.
  apply (validated_file_is_processed Cases.silent Cases.browser Cases.png constructor).
  vm_compute. reflexivity.
Defined.

(** X11.  Nothing of an earlier image is left in a result: the image data
    computed for an image does not depend on what the canvas of the
    processor held before. *)
Theorem processImageElement_starts_from_a_clean_canvas raster img this this' :
  let r := fst (processImageElement raster img this) in
  let r' := fst (processImageElement raster img this') in
  width (imageData r) = width (imageData r') /\
  height (imageData r) = height (imageData r') /\
  forall k, data (imageData r) k = data (imageData r') k.
Proof.
  cbv zeta. unfold processImageElement. cbn. auto.
Qed.

(** X12.  After [dispose()], the canvas that processed an image is
    transparent black everywhere. *)
Theorem dispose_erases_the_image raster img this i j :
  (0 <= i < 224)%Z -> (0 <= j < 224)%Z ->
  let this' := ImageFiles.dispose (snd (processImageElement raster img this)) in
  pixel (getImageData 0 0 224 224 (canvas this')) i j = transparent_black.
Proof.
  intros Hi Hj. cbv zeta.
  rewrite getImageData_pixel by (try reflexivity; assumption).
  unfold ImageFiles.dispose, processImageElement.
  cbn [canvas snd clearRect bitmap canvas_width canvas_height drawImage set_height set_width].
  replace ((0 <=? i) && (i <? 0 + targetSize) && (0 <=? j) && (j <? 0 + targetSize))%Z
    with true
    by (symmetry; unfold targetSize; rewrite !andb_true_iff, !Z.leb_le, !Z.ltb_lt; lia).
  reflexivity.
Qed.

Lemma disposed_corner_is_erased :
  pixel (getImageData 0 0 224 224
           (canvas (ImageFiles.dispose
                      (snd (processImageElement Scenario.flat (Scenario.photo 224 224)
                              constructor))))) 100 100
  = transparent_black.
Proof.
  apply (dispose_erases_the_image Scenario.flat (Scenario.photo 224 224) constructor 100 100);
    lia.
Defined.

End ImageFileFacts.

(** ** The server route *)

Section RouteFacts.

Import ImageFiles Route.

Lemma byte_is_nth a i b : byte_is a i b = true <-> nth_error a i = Some b.
Proof.
  unfold byte_is. destruct (nth_error a i) as [x|].
  - rewrite Z.eqb_eq. split; congruence.
  - split; discriminate.
Qed.

Lemma nth_error_skipn {A} (l : list A) n i : nth_error (skipn n l) i = nth_error l (n + i).
Proof.
  revert l. induction n; intros l; [reflexivity|].
  destruct l; cbn; [destruct i; reflexivity|apply IHn].
Qed.

Lemma firstn_3_nth (a : list Z) x y z :
  firstn 3 a = [x; y; z] <->
  nth_error a 0 = Some x /\ nth_error a 1 = Some y /\ nth_error a 2 = Some z.
Proof.
  destruct a as [|a0 [|a1 [|a2 a]]]; cbn; split;
    try (intros H; discriminate H); try (intros (H0 & H1 & H2); discriminate).
  - intros H. inversion H. auto.
  - intros (H0 & H1 & H2). congruence.
Qed.

Lemma firstn_4_nth (a : list Z) x y z t :
  firstn 4 a = [x; y; z; t] <->
  nth_error a 0 = Some x /\ nth_error a 1 = Some y /\ nth_error a 2 = Some z /\
  nth_error a 3 = Some t.
Proof.
  destruct a as [|a0 [|a1 [|a2 [|a3 a]]]]; cbn; split;
    try (intros H; discriminate H); try (intros (H0 & H1 & H2 & H3); discriminate).
  - intros H. inversion H. auto.
  - intros (H0 & H1 & H2 & H3). congruence.
Qed.

(** The two outcomes of [processImage]. *)
Lemma processImage_outcome a :
  let signed :=
    firstn 4 a = [137; 80; 78; 71] \/ firstn 3 a = [255; 216; 255] \/
    firstn 4 (skipn 8 a) = [87; 69; 66; 80] in
  (signed /\ processImage a = Return true) \/
  (~ signed /\
   processImage a = Throw (Error "Image processing failed: Invalid image format")).
Proof.
  cbv zeta. unfold processImage.
  set (isPNG := byte_is a 0 137 && byte_is a 1 80 && byte_is a 2 78 && byte_is a 3 71).
  set (isJPEG := byte_is a 0 255 && byte_is a 1 216 && byte_is a 2 255).
  set (isWebP := byte_is a 8 87 && byte_is a 9 69 && byte_is a 10 66 && byte_is a 11 80).
  assert (P : isPNG = true <-> firstn 4 a = [137; 80; 78; 71]).
  { unfold isPNG. rewrite !andb_true_iff, !byte_is_nth, firstn_4_nth. tauto. }
  assert (J : isJPEG = true <-> firstn 3 a = [255; 216; 255]).
  { unfold isJPEG. rewrite !andb_true_iff, !byte_is_nth, firstn_3_nth. tauto. }
  assert (W : isWebP = true <-> firstn 4 (skipn 8 a) = [87; 69; 66; 80]).
  { unfold isWebP. rewrite !andb_true_iff, !byte_is_nth, firstn_4_nth, !nth_error_skipn.
    cbn [Nat.add]. tauto. }
  destruct isPNG, isJPEG, isWebP; cbn;
    (left; split; [tauto|reflexivity]) || (right; split; [|reflexivity]);
    intros [H|[H|H]]; [apply P in H|apply J in H|apply W in H]; discriminate.
Qed.

(** X13.  [processImage] looks at the signature and at nothing else: it
    returns [true] when the bytes start with the first four bytes of a PNG file or
    the first three of a JPEG file, or when bytes 8 to 11 spell WEBP,
    whatever the first eight bytes are; in every other case, the empty
    buffer included, it throws ["Image processing failed: Invalid image
    format"].  It never returns [false]. *)
Theorem processImage_checks_the_signature a :
  let signed :=
    firstn 4 a = [137; 80; 78; 71] \/ firstn 3 a = [255; 216; 255] \/
    firstn 4 (skipn 8 a) = [87; 69; 66; 80] in
  (signed /\ processImage a = Return true) \/
  (~ signed /\
   processImage a = Throw (Error "Image processing failed: Invalid image format")).
Proof. exact (processImage_outcome a). Qed.

(** Both validations give an error message exactly when they reject. *)
Lemma validateImage_error rt file :
  ImageFiles.error (validateImage rt file) = None <-> isValid (validateImage rt file) = true.
Proof.
  unfold validateImage.
  destruct (gt (size file) (10 * 1024 * 1024)%float); [split; discriminate|].
  destruct (includes validTypes (toLowerCase (type file))); split;
    discriminate || reflexivity.
Qed.

Ltac no_upload :=
  repeat split; auto; try discriminate; try lia;
  try (intros (f & H & H1 & H2 & H3); (discriminate || (inversion H; subst f; congruence))).

(** X14.  The answers of [POST]: the status is 200, 400 or 500; [success] is
    true and [data] is present on 200 only, [error] on 400 and 500 only; and
    the status is 200 exactly when the form holds an uploaded file that
    passes [validateImage], can be read, and carries one of the three
    signatures. *)
Theorem POST_succeeds_on_valid_images_only rt request :
  let r := POST rt request in
  (status r = 200 \/ status r = 400 \/ status r = 500) /\
  success r = (status r =? 200) /\
  (data r = None <-> status r <> 200) /\
  (Route.error r = None <-> status r = 200) /\
  (status r = 200 <->
   exists file,
     formData request = Return (Upload file) /\
     isValid (validateImage rt file) = true /\
     arrayBuffer_fails request = None /\
     processImage (bytes file) = Return true).
Proof.
  cbv zeta. unfold POST, serve.
  destruct (formData request) as [[| s |file]|e]; cbn; [no_upload|destruct s; no_upload| |no_upload].
  pose proof (validateImage_error rt file) as VE.
  destruct (isValid (validateImage rt file)) eqn:V; cbn.
  - destruct (arrayBuffer_fails request) as [e|] eqn:A; cbn; [no_upload|].
    destruct (processImage_outcome (bytes file)) as [[_ P]|[_ P]]; rewrite P; cbn.
    + no_upload. intros _. exists file. auto.
    + no_upload.
  - no_upload. intros H. apply VE in H. discriminate.
Qed.

(** X15.  A file of an accepted type and size whose bytes carry none of
    the signatures is answered with status 500, not 400. *)
Theorem POST_answers_500_to_a_wrong_signature rt request file :
  formData request = Return (Upload file) ->
  isValid (validateImage rt file) = true ->
  arrayBuffer_fails request = None ->
  firstn 4 (bytes file) <> [137; 80; 78; 71] ->
  firstn 3 (bytes file) <> [255; 216; 255] ->
  firstn 4 (skipn 8 (bytes file)) <> [87; 69; 66; 80] ->
  POST rt request =
    {| status := 500; success := false; data := None;
       Route.error := Some "Image processing failed: Invalid image format"%string |}.
Proof.
  intros F V A S1 S2 S3. unfold POST, serve. rewrite F, V, A. cbn [negb].
  destruct (processImage_outcome (bytes file)) as [[S _]|[_ P]]; [tauto|].
  rewrite P. reflexivity.
Qed.

Lemma mislabelled_upload_is_answered_500 :
  POST Cases.silent (Cases.upload Cases.mislabelled) =
    {| status := 500; success := false; data := None;
       Route.error := Some "Image processing failed: Invalid image format"%string |}.
Proof.
  apply (POST_answers_500_to_a_wrong_signature Cases.silent
           (Cases.upload Cases.mislabelled) Cases.mislabelled);
    try reflexivity; cbn; discriminate.
Defined.

End RouteFacts.

Section SimulatedPrediction.

Local Open Scope float_scope.

Import Route.

Lemma SFadd_not_nan_l x s m e :
  x <> S754_nan -> SF64add (S754_finite s m e) x <> S754_nan.
Proof.
  intros Hx. destruct x as [sx|sx| |sx mx ex]; simpl; try discriminate; try congruence.
  apply binary_normalize_not_nan.
Qed.

(** A confidence [a + r * b] is a number when the random number is. *)
Lemma confidence_not_NaN a b r :
  (exists s m e, Prim2SF a = S754_finite s m e) ->
  (exists s m e, Prim2SF b = S754_finite s m e) ->
  isNaN r = false -> isNaN (a + r * b) = false.
Proof.
  intros (sa & ma & ea & Ha) (sb & mb & eb & Hb). rewrite !isNaN_false. intros H.
  rewrite add_spec, mul_spec, Ha, Hb.
  apply SFadd_not_nan_l, SFmul_not_nan, H.
Qed.

Lemma capped x : isNaN x = false -> (Math_min x 0.95 <=? 0.95) = true.
Proof.
  intros Hx.
  destruct (Math_min_cases x 0.95 Hx eq_refl) as [[-> _]|[-> H]]; [reflexivity|exact H].
Qed.

(** X16.  Whatever [Math.random()] returns, the two confidences of the simulated
    prediction are numbers that do not exceed 0.95. *)
Theorem simulated_confidences_are_capped r1 r2 r3 r4 :
  isNaN r3 = false -> isNaN r4 = false ->
  let p := simulateMLPrediction r1 r2 r3 r4 in
  (ageConfidence p <=? 0.95) = true /\ (genderConfidence p <=? 0.95) = true.
Proof.
  intros H3 H4. cbv zeta. unfold simulateMLPrediction. cbn [ageConfidence genderConfidence].
  split; apply capped, confidence_not_NaN; try assumption; vm_compute; eauto.
Qed.

Lemma simulated_confidences_of_a_request_are_capped :
  let p := simulateMLPrediction 0.5 0.25 0.999 0.125 in
  (ageConfidence p <=? 0.95) = true /\ (genderConfidence p <=? 0.95) = true.
Proof.
  apply (simulated_confidences_are_capped 0.5 0.25 0.999 0.125); reflexivity.
Defined.

End SimulatedPrediction.

(** ** The polling component *)

Section Poller.

Import ModelLoader.

Lemma ticks_when_stopped seen c : polling c = false -> fold_left tick seen c = c.
Proof.
  intros H. induction seen as [|s seen IH]; [reflexivity|].
  cbn [fold_left]. unfold tick at 2. rewrite H. exact IH.
Qed.

Lemma ticks_while_loading seen c :
  polling c = true ->
  Forall (fun s => isLoaded s || truthy (error s) = false) seen ->
  polling (fold_left tick seen c) = true /\
  completed (fold_left tick seen c) = completed c.
Proof.
  revert c. induction seen as [|s seen IH]; intros c Hp Hs; [auto|].
  inversion Hs as [|? ? Hq Hs']; subst. cbn [fold_left].
  unfold tick at 2. unfold tick at 3. rewrite Hp, Hq.
  apply (IH {| ModelLoader.loadingState := s; polling := true; completed := completed c |});
    auto.
Qed.

(** X17.  The polling component on a first load: while the load is in progress
    (any number of ticks, each one seeing a state that the load shows at one
    of its [await]s) nothing is reported; on the first tick after the end,
    [onLoadComplete(true)] is called once on success, [onLoadComplete(false)]
    once on a failure, and the interval is cleared; but when the failure has
    the empty string as its message, no tick ever reports it: the interval
    stays set and [onLoadComplete] is never called. *)
Theorem poller_reports_the_end_of_a_first_load env w seen k :
  isInitialized (modelManager w) = false ->
  isLoaded (state_of w) = false ->
  Forall (fun s => In s (samples (loadModels env w))) seen ->
  let r := loadModels env w in
  let c := poll (seen ++ repeat (getLoadingState (final r)) (S k)) in
  match caught r with
  | None =>
      polling c = false /\ completed c = [true] /\
      ModelLoader.loadingState c = getLoadingState (final r)
  | Some e =>
      if String.eqb (message_or "Failed to load models" e) "" then
        polling c = true /\ completed c = []
      else
        polling c = false /\ completed c = [false] /\
        ModelLoader.loadingState c = getLoadingState (final r)
  end.
Proof.
  intros Hi Hl Hseen. cbv zeta.
  assert (W : Forall (fun s => isLoaded s || truthy (error s) = false) seen).
  { eapply Forall_impl; [|exact Hseen].
    destruct (load_outcomes env w Hi) as (_ & [(_ & Hs & _)|(e & p & _ & _ & _ & Hs)]);
      rewrite Hl in Hs; [|destruct Hs as [[Hs _]|[Hs _]]]; rewrite Hs; cbn;
      intuition (subst; auto). }
  unfold poll. rewrite fold_left_app.
  destruct (ticks_while_loading seen mount eq_refl W) as [P C].
  set (c0 := fold_left tick seen mount) in *.
  set (f := getLoadingState (final (loadModels env w))).
  destruct (load_outcomes env w Hi)
    as (_ & [(Hc & _ & _ & Hf)|(e & p & Hc & _ & Hf & _)]); rewrite Hc; fold f in Hf.
  - cbn [repeat fold_left].
    assert (T : tick c0 f
                = {| ModelLoader.loadingState := f; polling := false;
                     completed := completed c0 ++ [true] |}).
    { unfold tick. rewrite P, Hf. reflexivity. }
    rewrite T, ticks_when_stopped by reflexivity. cbn. rewrite C. auto.
  - rewrite Hl in Hf.
    destruct (String.eqb (message_or "Failed to load models" e) "") eqn:E.
    + assert (L : Forall (fun s => isLoaded s || truthy (error s) = false)
                    (repeat f (S k))).
      { apply Forall_forall. intros s Hs. apply repeat_spec in Hs. subst s.
        rewrite Hf. cbn. rewrite E. reflexivity. }
      destruct (ticks_while_loading _ c0 P L) as [P' C']. rewrite P', C', C. auto.
    + cbn [repeat fold_left].
      assert (T : tick c0 f
                  = {| ModelLoader.loadingState := f; polling := false;
                       completed := completed c0 ++ [false] |}).
      { unfold tick. rewrite P, Hf. cbn. rewrite E. reflexivity. }
      rewrite T, ticks_when_stopped by reflexivity. cbn. rewrite C. auto.
Qed.

Lemma poller_reports_a_first_load_that_succeeds :
  let r := loadModels Scenario.works initial in
  let c := poll ([Loading false 0; Loading false 0; Loading false 90]
                 ++ repeat (getLoadingState (final r)) 3) in
  polling c = false /\ completed c = [true] /\
  ModelLoader.loadingState c = getLoadingState (final r).
Proof.
  assert (S : samples (loadModels Scenario.works initial)
              = [Loading false 0; Loading false 90; Loading false 90]) by exact eq_refl.
  assert (C : caught (loadModels Scenario.works initial) = None) by exact eq_refl.
  assert (W : Forall (fun s => In s (samples (loadModels Scenario.works initial)))
                [Loading false 0; Loading false 0; Loading false 90]).
  { rewrite S. repeat (apply Forall_cons; [cbn [In]; auto|]). apply Forall_nil. }
  pose proof (poller_reports_the_end_of_a_first_load Scenario.works initial
                [Loading false 0; Loading false 0; Loading false 90] 2
                eq_refl eq_refl W) as H.
  cbv zeta in H. rewrite C in H. cbv zeta. exact H.
Defined.

End Poller.

(** ** The page *)

Section PageFacts.

Import ImageFiles Page.

Lemma analyse_manager b env f w :
  modelManager (snd (analyse b env f w)) = modelManager w.
Proof.
  unfold analyse. destruct (createImageProcessor b) as [processor|]; [|reflexivity].
  destruct (processImageFile b f processor) as [[r|e] p]; [|reflexivity].
  apply predict_manager.
Qed.

(** X18.  [handleImageSelect] always ends with [isProcessing] false, the
    file and the preview that were selected, and exactly one of a prediction
    and an error message; it never changes the manager of the models. *)
Theorem handleImageSelect_ends_with_a_prediction_or_an_error b env f p w :
  let s := fst (handleImageSelect b env f p w) in
  let w' := snd (handleImageSelect b env f p w) in
  Page.file s = Some f /\ preview s = Some p /\ isProcessing s = false /\
  modelManager w' = modelManager w /\
  ((exists r, analyse b env f w = (Return r, w') /\
              prediction s = Some r /\ Page.error s = None) \/
   (exists e, analyse b env f w = (Throw e, w') /\
              prediction s = None /\
              Page.error s = Some (message_or "Analysis failed" e))).
Proof.
  cbv zeta. unfold handleImageSelect.
  pose proof (analyse_manager b env f w) as M.
  destruct (analyse b env f w) as [[r|e] w']; cbn in *; repeat split; eauto.
Qed.

(** X19.  What the page shows when the analysis stops before the models
    run, in the order of the checks: no 2D context; a media type outside
    the list (the size of the file is not looked at); an image that the
    browser cannot decode; models that are not loaded.  In each case the
    models and the tensors are untouched. *)
Theorem handleImageSelect_errors_before_the_models_run b env f p w :
  let s := fst (handleImageSelect b env f p w) in
  let w' := snd (handleImageSelect b env f p w) in
  (getContext b = false ->
   Page.error s = Some "Could not get 2D context from canvas"%string /\ w' = w) /\
  (getContext b = true -> isValidImageFile f = false ->
   Page.error s = Some "Invalid image file format"%string /\ w' = w) /\
  (getContext b = true -> isValidImageFile f = true -> decode b f = None ->
   Page.error s = Some "Failed to load image"%string /\ w' = w) /\
  (getContext b = true -> isValidImageFile f = true -> decode b f <> None ->
   Spec.isReady w = false ->
   Page.error s = Some "Models not loaded. Call loadModels() first."%string /\ w' = w).
Proof.
  cbv zeta. unfold handleImageSelect, analyse, createImageProcessor, processImageFile.
  repeat split; intros; 
    repeat match goal with H : _ = _ |- _ => rewrite H end; cbn; try reflexivity.
  all: destruct (decode b f) as [img|]; [|congruence]; cbn;
    rewrite predict_guard by assumption; reflexivity.
Qed.

Lemma selecting_a_file_before_the_models_are_loaded :
  let s := fst (handleImageSelect Cases.browser Scenario.works Cases.png
                  createCanvas initial) in
  let w' := snd (handleImageSelect Cases.browser Scenario.works Cases.png
                   createCanvas initial) in
  Page.error s = Some "Models not loaded. Call loadModels() first."%string /\ w' = initial.
Proof.
  apply (proj2 (proj2 (proj2
           (handleImageSelect_errors_before_the_models_run Cases.browser Scenario.works
              Cases.png createCanvas initial))));
    try reflexivity.
  discriminate.
Defined.

End PageFacts.
